(** * Room presence and reconnection: a shallow embedding of the chat backend

    The development follows the JavaScript sources module by module:

    - [GraceTimers]         : events/systemEvents.js, the 78-line grace-period
                              module ([addDisconnectGraceTimer],
                              [cancelDisconnectTimer], [getRemainingGracePeriod]);
    - [SocketStore]         : utils/socketStore.js;
    - [RedisPresence]       : utils/redisPresence.js;
    - [RoomEvents]          : events/roomEvents.js ([joinRoom], [rejoinRoom],
                              [leaveRoom]);
    - [SystemEventsHandler] : the version of events/systemEvents.js that
                              registers [authenticate], [logout] and
                              [disconnect] on each socket.

    JavaScript values are kept as a small tagged union with the language's own
    truthiness; module-level [Map]s are [gmap]s; the Node timer table is an
    explicit component of the state; handlers run in a state/exception/output
    monad whose output is the list of socket.io emissions.  The properties
    follow the definitions, one module of facts per source module. *)

From stdpp Require Import base option list gmap sets strings pretty.
From Stdlib Require Import ZArith Lia.

Local Open Scope Z_scope.

(** ** JavaScript values *)

Inductive JsVal : Type :=
  | JUndefined
  | JNull
  | JBool (b : bool)
  | JNum (n : Z)
  | JStr (s : string).

#[global] Instance JsVal_eq_dec : EqDecision JsVal.
Proof. solve_decision. Defined.

Definition JsVal_enc (v : JsVal) : unit + unit + bool + Z + string :=
  match v with
  | JUndefined => inl (inl (inl (inl tt)))
  | JNull => inl (inl (inl (inr tt)))
  | JBool b => inl (inl (inr b))
  | JNum n => inl (inr n)
  | JStr s => inr s
  end.

Definition JsVal_dec (x : unit + unit + bool + Z + string) : JsVal :=
  match x with
  | inl (inl (inl (inl _))) => JUndefined
  | inl (inl (inl (inr _))) => JNull
  | inl (inl (inr b)) => JBool b
  | inl (inr n) => JNum n
  | inr s => JStr s
  end.

#[global] Instance JsVal_countable : Countable JsVal.
Proof.
  apply (inj_countable' JsVal_enc JsVal_dec).
  intros []; reflexivity.
Defined.

(** [!v] is [negb (truthy v)].  Numbers are integers here, so NaN does not
    occur. *)
Definition truthy (v : JsVal) : bool :=
  match v with
  | JUndefined | JNull => false
  | JBool b => b
  | JNum n => negb (n =? 0)
  | JStr s => negb (String.eqb s "")
  end.

(** The string a template literal [`${v}`] produces. *)
Definition to_string (v : JsVal) : string :=
  match v with
  | JUndefined => "undefined"
  | JNull => "null"
  | JBool true => "true"
  | JBool false => "false"
  | JNum n => pretty n
  | JStr s => s
  end.

(** [a || b] *)
Definition js_or (a b : JsVal) : JsVal := if truthy a then a else b.

(** A destructuring default [{ x = d }]: only [undefined] takes the default. *)
Definition with_default (d v : JsVal) : JsVal :=
  match v with JUndefined => d | _ => v end.

(** ** Results, exceptions and the handler monad *)

Inductive Exn : Type :=
  | ReferenceError (name : string)
  | TypeError
  | Rejected (what : string).

Inductive res (A : Type) : Type :=
  | Ok (a : A)
  | Throw (e : Exn).
Arguments Ok {A} a.
Arguments Throw {A} e.

(** State, exception and output: a thrown exception keeps the state reached
    and the emissions made so far, as a JavaScript [throw] does. *)
Definition M (S O A : Type) : Type := S → res A * S * list O.

Section Monad.
Context {S O : Type}.

Definition ret {A} (a : A) : M S O A := λ s, (Ok a, s, []).

Definition bind {A B} (m : M S O A) (k : A → M S O B) : M S O B :=
  λ s, match m s with
       | (Ok a, s1, o1) =>
           match k a s1 with (r, s2, o2) => (r, s2, o1 ++ o2) end
       | (Throw e, s1, o1) => (Throw e, s1, o1)
       end.

Definition throw {A} (e : Exn) : M S O A := λ s, (Throw e, s, []).

Definition try_catch {A} (m : M S O A) (h : Exn → M S O A) : M S O A :=
  λ s, match m s with
       | (Ok a, s1, o1) => (Ok a, s1, o1)
       | (Throw e, s1, o1) =>
           match h e s1 with (r, s2, o2) => (r, s2, o1 ++ o2) end
       end.

Definition get : M S O S := λ s, (Ok s, s, []).
Definition modify (f : S → S) : M S O unit := λ s, (Ok tt, f s, []).
Definition tell (o : O) : M S O unit := λ s, (Ok tt, s, [o]).

(** Lift a fallible read of the state. *)
Definition ask {A} (f : S → res A) : M S O A := λ s, (f s, s, []).

(** Three judgements on a computation, each over every outcome (returned or
    thrown): it leaves the projection [f] of the state as it was; all it
    emits satisfies [W]; started where [P] holds it ends where [Q] holds. *)
Definition keeps {A X} (f : S → X) (m : M S O A) : Prop :=
  ∀ s, f (m s).1.2 = f s.
Definition writes {A} (W : O → Prop) (m : M S O A) : Prop :=
  ∀ s, Forall W (m s).2.
Definition hoare {A} (P : S → Prop) (m : M S O A) (Q : S → Prop) : Prop :=
  ∀ s, P s → Q (m s).1.2.
End Monad.

#[global] Instance M_ret {S O} : MRet (M S O) := λ A, @ret S O A.
#[global] Instance M_bind {S O} : MBind (M S O) := λ A B k m, @bind S O A B m k.

(** ** The Node timer table

    [setTimeout] registers a task that fires once, no earlier than its due
    instant; [clearTimeout] unregisters it (a no-op for a handle that already
    fired or was cleared).  The closure type [C] holds the variables the
    callback captured. *)

Record Task (C : Type) : Type := mkTask { due : Z; closure : C }.
Arguments mkTask {C} _ _.
Arguments due {C} _.
Arguments closure {C} _.

Record Loop (C : Type) : Type := mkLoop {
  now : Z;                      (* Date.now() *)
  next_handle : nat;            (* handles are allocated in order *)
  armed : gmap nat (Task C)     (* timers set and neither fired nor cleared *)
}.
Arguments mkLoop {C} _ _ _.
Arguments now {C} _.
Arguments next_handle {C} _.
Arguments armed {C} _.

(** Node coerces a delay outside [1, 2^31-1] to 1 ms. *)
Definition TIMEOUT_MAX : Z := 2147483647.
Definition coerce_delay (d : Z) : Z :=
  if (1 <=? d) && (d <=? TIMEOUT_MAX) then d else 1.

Definition setTimeout {C} (c : C) (delay : Z) (l : Loop C) : nat * Loop C :=
  (next_handle l,
   mkLoop (now l) (Datatypes.S (next_handle l))
          (<[next_handle l := mkTask (now l + coerce_delay delay) c]> (armed l))).

Definition clearTimeout {C} (h : nat) (l : Loop C) : Loop C :=
  mkLoop (now l) (next_handle l) (delete h (armed l)).

(** Time passes. *)
Definition advance {C} (dt : Z) (l : Loop C) : Loop C :=
  mkLoop (now l + Z.max 0 dt) (next_handle l) (armed l).

(** The loop takes a due timer off the table and hands back its closure. *)
Definition take_due {C} (h : nat) (l : Loop C) : option (C * Loop C) :=
  match armed l !! h with
  | Some t => if due t <=? now l
              then Some (closure t, mkLoop (now l) (next_handle l) (delete h (armed l)))
              else None
  | None => None
  end.

(** ** The Presence Directory *)

(** Modelled from the spec: utils/presence and utils/redisUtils are not among
    the sources.  The directory is the durable per-room set of member names,
    together with the per-user presence status.  Room identifiers and names
    are stored as the strings the store keeps. *)
Record Directory : Type := mkDirectory {
  members : gmap string (gset string);
  status : gmap string string
}.

(** Modelled from the spec: [membersOf(roomId)] of the Presence Directory. *)
Definition membersOf (room : JsVal) (d : Directory) : gset string :=
  default ∅ (members d !! to_string room).

(** Modelled from the spec: [addMember(roomId, username)]. *)
Definition addMember (room name : JsVal) (d : Directory) : Directory :=
  mkDirectory (<[to_string room := {[to_string name]} ∪ membersOf room d]> (members d))
              (status d).

(** Modelled from the spec: [removeMember(roomId, username)], which is what
    [presence.removeUserFromRoom] does to the directory. *)
Definition removeMember (room name : JsVal) (d : Directory) : Directory :=
  mkDirectory (<[to_string room := membersOf room d ∖ {[to_string name]}]> (members d))
              (status d).

(** Modelled from the spec: [isMember(roomId, username)]. *)
Definition isMember (room name : JsVal) (d : Directory) : bool :=
  bool_decide (to_string name ∈ membersOf room d).

(** Modelled from the spec: [setPresence(username, status)] of
    utils/redisUtils records the user's presence status. *)
Definition setPresence (name : JsVal) (s : string) (d : Directory) : Directory :=
  mkDirectory (members d) (<[to_string name := s]> (status d)).

(** ** events/systemEvents.js: the grace-period module *)

Module GraceTimers.

Definition DISCONNECT_GRACE_PERIOD : Z := 1800000.

(** The value stored in [disconnectGraceTimers]. *)
Record TimerInfo : Type := mkTimerInfo {
  timer : nat;
  username : JsVal;
  roomId : JsVal;
  startedAt : Z
}.

(** Variables captured by the expiry callback. *)
Record Expiry : Type := mkExpiry {
  e_userId : JsVal;
  e_username : JsVal;
  e_roomId : JsVal
}.

Record State : Type := mkState {
  disconnectGraceTimers : gmap JsVal TimerInfo;   (* the module-level Map *)
  loop : Loop Expiry;                             (* Node's timers *)
  awaiting : gmap nat Expiry;     (* callbacks that fired and sit at an await *)
  directory : Directory
}.

Definition init : State :=
  mkState ∅ (mkLoop 0 0%nat ∅) ∅ (mkDirectory ∅ ∅).

(** [duration] is the optional fourth argument; left out, it takes the
    default [DISCONNECT_GRACE_PERIOD]. *)
Definition addDisconnectGraceTimer
    (userId username roomId : JsVal) (duration : option Z) (st : State) : State :=
  match disconnectGraceTimers st !! userId with
  | Some _ => st
  | None =>
      let d := default DISCONNECT_GRACE_PERIOD duration in
      let '(h, l) := setTimeout (mkExpiry userId username roomId) d (loop st) in
      mkState (<[userId := mkTimerInfo h username roomId (now l)]>
                 (disconnectGraceTimers st))
              l (awaiting st) (directory st)
  end.

Definition cancelDisconnectTimer (userId : JsVal) (st : State) : bool * State :=
  match disconnectGraceTimers st !! userId with
  | Some timerInfo =>
      (true,
       mkState (delete userId (disconnectGraceTimers st))
               (clearTimeout (timer timerInfo) (loop st))
               (awaiting st) (directory st))
  | None => (false, st)
  end.

Definition getRemainingGracePeriod (userId : JsVal) (st : State) : Z :=
  match disconnectGraceTimers st !! userId with
  | None => 0
  | Some timerInfo =>
      let elapsed := now (loop st) - startedAt timerInfo in
      Z.max 0 (DISCONNECT_GRACE_PERIOD - elapsed)
  end.

(** *** The expiry callback

    The callback is [async]: it runs up to its first [await] when the timer
    fires ([fire]) and finishes once the awaited store calls have settled
    ([settle]); other events of the process run in between. *)

Definition fire (h : nat) (st : State) : option State :=
  match take_due h (loop st) with
  | Some (c, l) =>
      Some (mkState (disconnectGraceTimers st) l (<[h := c]> (awaiting st))
                    (directory st))
  | None => None
  end.

(** How the two awaited calls ended. *)
Record Outcome : Type := mkOutcome {
  removed : bool;     (* presence.removeUserFromRoom resolved *)
  offline : bool      (* setPresence resolved (its rejection is caught) *)
}.

Definition settle (h : nat) (o : Outcome) (st : State) : option State :=
  match awaiting st !! h with
  | None => None
  | Some c =>
      if truthy (e_roomId c) && negb (removed o) then
        (* the await rejects: the callback ends there *)
        Some (mkState (disconnectGraceTimers st) (loop st)
                      (delete h (awaiting st)) (directory st))
      else
        let d1 := if truthy (e_roomId c)
                  then removeMember (e_roomId c) (e_username c) (directory st)
                  else directory st in
        let d2 := if offline o then setPresence (e_username c) "offline" d1 else d1 in
        Some (mkState (delete (e_userId c) (disconnectGraceTimers st)) (loop st)
                      (delete h (awaiting st)) d2)
  end.

(** *** Schedules *)

Inductive Op : Type :=
  | Disconnect (userId username roomId : JsVal) (duration : option Z)
  | Reconnect (userId : JsVal)
  | Wait (dt : Z)
  | Fire (h : nat)
  | Settle (h : nat) (o : Outcome).

Definition step (st : State) (op : Op) : State :=
  match op with
  | Disconnect u n r d => addDisconnectGraceTimer u n r d st
  | Reconnect u => (cancelDisconnectTimer u st).2
  | Wait dt => mkState (disconnectGraceTimers st) (advance dt (loop st))
                       (awaiting st) (directory st)
  | Fire h => default st (fire h st)
  | Settle h o => default st (settle h o st)
  end.

Definition run (ops : list Op) (st : State) : State := foldl step st ops.

(** The handles of the timers armed for [u]. *)
Definition armed_for (u : JsVal) (st : State) : list nat :=
  (map_to_list (filter (λ ht, e_userId (closure ht.2) = u) (armed (loop st)))).*1.

(** A schedule in which every expiry runs to its end before the next event. *)
Inductive SeqOp : Type :=
  | SDisconnect (userId username roomId : JsVal) (duration : option Z)
  | SReconnect (userId : JsVal)
  | SWait (dt : Z)
  | SExpire (h : nat) (o : Outcome).

Definition seq_ops (s : SeqOp) : list Op :=
  match s with
  | SDisconnect u n r d => [Disconnect u n r d]
  | SReconnect u => [Reconnect u]
  | SWait dt => [Wait dt]
  | SExpire h o => [Fire h; Settle h o]
  end.

Definition sequential (ss : list SeqOp) : list Op := ss ≫= seq_ops.

(** At most one armed timer per user. *)
Definition one_timer_per_user (st : State) : Prop :=
  ∀ h1 h2 t1 t2,
    armed (loop st) !! h1 = Some t1 →
    armed (loop st) !! h2 = Some t2 →
    e_userId (closure t1) = e_userId (closure t2) →
    h1 = h2.

(** Every armed timer is the one its user's map entry records. *)
Definition tracked (st : State) : Prop :=
  awaiting st = ∅ ∧
  ∀ h t, armed (loop st) !! h = Some t →
    (h < next_handle (loop st))%nat ∧
    ∃ ti, disconnectGraceTimers st !! e_userId (closure t) = Some ti ∧ timer ti = h.

(** The schedule of the race: the timer of [u1] fires and its callback
    waits for the store; [u1] reconnects and drops again; the callback then
    finishes and deletes the entry of the new timer. *)
Definition u1 : JsVal := JStr "u1".
Definition stale_expiry_schedule : list Op :=
  [ Disconnect u1 (JStr "alice") (JStr "lobby") None;
    Wait 1800000;
    Fire 0%nat;
    Reconnect u1;
    Wait 5;
    Disconnect u1 (JStr "alice") (JStr "lobby") None;
    Settle 0%nat (mkOutcome true true);
    Reconnect u1;
    Wait 1000;
    Disconnect u1 (JStr "alice") (JStr "lobby") None ].

(** What every reachable state satisfies: handles in use lie below the next
    one, an entry's start is not in the future, and two entries never record
    the same timer. *)
Definition sane (st : State) : Prop :=
  (∀ h t, armed (loop st) !! h = Some t → (h < next_handle (loop st))%nat) ∧
  (∀ u ti, disconnectGraceTimers st !! u = Some ti →
     (timer ti < next_handle (loop st))%nat ∧ startedAt ti ≤ now (loop st)) ∧
  (∀ u v ti tj, disconnectGraceTimers st !! u = Some ti →
     disconnectGraceTimers st !! v = Some tj → timer ti = timer tj → u = v).

End GraceTimers.

(** ** utils/socketStore.js: the Connection Registry *)

Module SocketStore.

(** What the registry reads of a live socket. *)
Record SocketInfo : Type := mkSocketInfo {
  s_userId : JsVal;
  s_username : JsVal
}.

(** The [/chat] namespace: [adapter.rooms] maps a room key to the set of
    socket ids in it (in insertion order), [sockets] maps ids to sockets. *)
Record Namespace : Type := mkNamespace {
  rooms : gmap string (list string);
  sockets : gmap string SocketInfo
}.

(** The server object; [of_chat] is [io.of('/chat')]. *)
Record Io : Type := mkIo { of_chat : Namespace }.

Record State : Type := mkState {
  ioInstance : option Io;
  chatNamespace : option Namespace;
  isReady : bool
}.

(** The module as loaded: [null], [null], [false]. *)
Definition init : State := mkState None None false.

Definition setIo (io : Io) (st : State) : State :=
  mkState (Some io) (Some (of_chat io)) true.

Definition getIo (st : State) : option Io := ioInstance st.
Definition getChatNamespace (st : State) : option Namespace := chatNamespace st.

Definition isSocketReady (st : State) : bool :=
  isReady st && bool_decide (chatNamespace st ≠ None).

Definition roomKey (roomId : JsVal) : string := "room:" +:+ to_string roomId.

(** [None] is the [null] the function returns when not ready. *)
Definition getSocketRoomCount (roomId : JsVal) (st : State) : option nat :=
  match isReady st, chatNamespace st with
  | true, Some ns =>
      match rooms ns !! roomKey roomId with
      | Some sids => Some (length sids)        (* size || 0 *)
      | None => Some 0%nat                     (* undefined || 0 *)
      end
  | _, _ => None
  end.

Record User : Type := mkUser {
  id : JsVal;
  username : JsVal;
  socketId : string
}.

Definition getSocketRoomUsers (roomId : JsVal) (st : State) : option (list User) :=
  match isReady st, chatNamespace st with
  | true, Some ns =>
      match rooms ns !! roomKey roomId with
      | None => Some []
      | Some socketIds =>
          Some (omap (λ sid,
                  match sockets ns !! sid with
                  | Some socket =>
                      if truthy (s_username socket)
                      then Some (mkUser (s_userId socket) (s_username socket) sid)
                      else None
                  | None => None
                  end) socketIds)
      end
  | _, _ => None
  end.

End SocketStore.

(** ** utils/redisPresence.js *)

Module RedisPresence.

(** The Redis client: the sets it holds, whether [getRedisClient] hands out
    a client, and whether commands go through. *)
Record Redis : Type := mkRedis {
  client_ready : bool;
  up : bool;
  sets : gmap string (gset string)
}.

(** Commands sent to the store, in order. *)
Inductive Cmd : Type :=
  | SADD (key member : string)
  | SREM (key member : string)
  | SMEMBERS (key : string)
  | SCARD (key : string)
  | SISMEMBER (key member : string)
  | DEL (key : string).

Definition R : Type → Type := M Redis Cmd.

Definition getRedisClient : R unit :=
  λ r, if client_ready r then (Ok tt, r, []) else (Throw (Rejected "redis client"), r, []).

(** Send a command: it is recorded, and rejected when the store is down. *)
Definition send {A} (c : Cmd) (run : Redis → A * Redis) : R A :=
  λ r, if up r then let '(a, r') := run r in (Ok a, r', [c])
       else (Throw (Rejected "redis command"), r, [c]).

Definition smembers (key : string) (r : Redis) : gset string :=
  default ∅ (sets r !! key).

Definition with_sets (f : gmap string (gset string) → gmap string (gset string))
    (r : Redis) : Redis :=
  mkRedis (client_ready r) (up r) (f (sets r)).

Definition sAdd (key member : string) : R unit :=
  send (SADD key member)
       (λ r, (tt, with_sets (<[key := {[member]} ∪ smembers key r]>) r)).

Definition sRem (key member : string) : R unit :=
  send (SREM key member)
       (λ r, (tt, with_sets (λ s, let rest := smembers key r ∖ {[member]} in
                                  if decide (rest = ∅) then delete key s
                                  else <[key := rest]> s) r)).

Definition sMembers (key : string) : R (list string) :=
  send (SMEMBERS key) (λ r, (elements (smembers key r), r)).

Definition sCard (key : string) : R nat :=
  send (SCARD key) (λ r, (size (smembers key r), r)).

Definition sIsMember (key member : string) : R bool :=
  send (SISMEMBER key member) (λ r, (bool_decide (member ∈ smembers key r), r)).

Definition del (key : string) : R unit :=
  send (DEL key) (λ r, (tt, with_sets (delete key) r)).

(** *** Module scope

    The identifiers the module binds at top level.  A name looked up and
    not found raises a [ReferenceError], as it does in Node. *)

Inductive Binding : Type :=
  | KeyBuilder (f : JsVal → string)
  | Constant (n : Z)
  | Imported
  | Exported.

Definition ROOM_PARTICIPANTS_KEY (roomId : JsVal) : string :=
  "room:" +:+ to_string roomId +:+ ":participants".
Definition ROOM_SYSTEM_KEY (roomId : JsVal) : string :=
  "room:system:" +:+ to_string roomId.
Definition MAX_SYSTEM_MESSAGES : Z := 50.

Definition module_scope : gmap string Binding :=
  list_to_map
    [ ("getRedisClient", Imported);
      ("ROOM_PARTICIPANTS_KEY", KeyBuilder ROOM_PARTICIPANTS_KEY);
      ("ROOM_SYSTEM_KEY", KeyBuilder ROOM_SYSTEM_KEY);
      ("MAX_SYSTEM_MESSAGES", Constant MAX_SYSTEM_MESSAGES);
      ("getRoomUsersFromTTL", Imported);
      ("getActiveUserCountInRoom", Imported);
      ("addUserToRoom", Exported);
      ("removeUserFromRoom", Exported);
      ("getRoomUsers", Exported);
      ("getRoomUserCount", Exported);
      ("isUserInRoom", Exported);
      ("addSystemMessage", Exported);
      ("getSystemMessages", Exported);
      ("clearRoomUsers", Exported) ].

Definition resolve (name : string) : R Binding :=
  match module_scope !! name with
  | Some b => mret b
  | None => throw (ReferenceError name)
  end.

(** Calling a binding with one argument to obtain a key. *)
Definition call_key (name : string) (arg : JsVal) : R string :=
  b ← resolve name;
  match b with
  | KeyBuilder f => mret (f arg)
  | _ => throw TypeError
  end.

(** *** The exported functions

    Each body is a [try] whose [catch] logs and returns the fallback. *)

Definition addUserToRoom (roomId username : JsVal) : R bool :=
  try_catch
    (getRedisClient;;
     key ← call_key "ROOM_PARTICIPANTS_KEY" roomId;
     sAdd key (to_string username);;
     mret true)
    (λ _, mret false).

Definition removeUserFromRoom (roomId username : JsVal) : R bool :=
  try_catch
    (getRedisClient;;
     key ← call_key "ROOM_PARTICIPANTS_KEY" roomId;
     sRem key (to_string username);;
     mret true)
    (λ _, mret false).

Definition getRoomUsers (ss : SocketStore.State) (roomId : JsVal) : R (list JsVal) :=
  try_catch
    (match SocketStore.getSocketRoomUsers roomId ss with
     | Some socketUsers => mret (map SocketStore.username socketUsers)
     | None =>
         getRedisClient;;
         usernames ← sMembers ("room:" +:+ to_string roomId +:+ ":participants");
         mret (map JStr usernames)
     end)
    (λ _, mret []).

Definition getRoomUserCount (ss : SocketStore.State) (roomId : JsVal) : R nat :=
  try_catch
    (match SocketStore.getSocketRoomCount roomId ss with
     | Some socketCount => mret socketCount
     | None =>
         getRedisClient;;
         count ← sCard ("room:" +:+ to_string roomId +:+ ":participants");
         mret count                              (* count || 0 *)
     end)
    (λ _, mret 0%nat).

Definition isUserInRoom (roomId username : JsVal) : R bool :=
  try_catch
    (getRedisClient;;
     key ← call_key "ROOM_PARTICIPANTS_KEY" roomId;
     sIsMember key (to_string username))
    (λ _, mret false).

(** The argument [ROOM_USERS_KEY(roomId)] is evaluated before [client.del]
    is called. *)
Definition clearRoomUsers (roomId : JsVal) : R bool :=
  try_catch
    (getRedisClient;;
     key ← call_key "ROOM_USERS_KEY" roomId;
     del key;;
     mret true)
    (λ _, mret false).

(** A registry that is ready and has nobody in room 7, next to a store that
    still lists two names. *)
Definition empty_ready : SocketStore.State :=
  SocketStore.setIo (SocketStore.mkIo (SocketStore.mkNamespace ∅ ∅)) SocketStore.init.
Definition stale_store : Redis :=
  mkRedis true true {[ "room:7:participants" := {[ "alice"; "bob" ]} ]}.

End RedisPresence.

(** ** events/roomEvents.js *)

Module RoomEvents.

(** *** Emissions *)

Inductive Target : Type :=
  | ToSocket                          (* socket.emit: the requesting client *)
  | ToRoomOthers (room : string)      (* socket.to(room).emit: the room but the sender *)
  | ToRoom (room : string).           (* io.to(room).emit: the whole room *)

(** Payloads; the [timestamp] fields are left out. *)
Inductive Payload : Type :=
  | PError (message : string)
  | PRejected (error : JsVal)
  | PJoined (roomId room userCount : JsVal) (participants : list JsVal)
            (level : option JsVal)
  | PPresence (username userId : JsVal) (message : string) (userCount : JsVal)
  | PListUpdate (userCount : JsVal) (participants : list JsVal)
  | PLeft (roomId : JsVal).

Record Emit : Type := mkEmit {
  target : Target;
  event : string;
  payload : Payload
}.

#[global] Instance Target_eq_dec : EqDecision Target.
Proof. solve_decision. Defined.

(** *** State *)

(** The handler's socket: [joinedRooms] is [None] until the handler creates
    the Set; [currentRoomId] starts [undefined]. *)
Record Socket : Type := mkSocket {
  sid : string;
  joinedRooms : option (gset JsVal);
  currentRoomId : JsVal
}.

(** The process: the socket, the adapter's rooms (the Connection Registry),
    and the state of the grace-period module with the directory. *)
Record World : Type := mkWorld {
  socket : Socket;
  adapter : gmap string (list string);
  grace : GraceTimers.State
}.

Definition directory (w : World) : Directory := GraceTimers.directory (grace w).

Definition with_directory (d : Directory) (w : World) : World :=
  mkWorld (socket w) (adapter w)
    (GraceTimers.mkState (GraceTimers.disconnectGraceTimers (grace w))
                         (GraceTimers.loop (grace w))
                         (GraceTimers.awaiting (grace w)) d).

Definition with_socket (s : Socket) (w : World) : World :=
  mkWorld s (adapter w) (grace w).

(** *** Collaborators

    roomService, utils/presence, utils/redisUtils and utils/xpLeveling are
    not among the sources: they are taken as parameters that read and write
    the directory and may throw. *)

Record JoinResult : Type := mkJoinResult {
  success : bool;
  room : JsVal;
  error : JsVal
}.

Record Services : Type := mkServices {
  roomService_joinRoom :
    JsVal → JsVal → JsVal → Directory → res JoinResult * Directory;
  roomService_leaveRoom :
    JsVal → JsVal → JsVal → Directory → res unit * Directory;
  presence_getRoomUserCount :
    JsVal → gmap string (list string) → Directory → res JsVal;
  getRoomParticipants : JsVal → Directory → res (list JsVal);
  getUserLevel : JsVal → Directory → res JsVal        (* levelData.level *)
}.

Definition H : Type → Type := M World Emit.

Definition emit (t : Target) (ev : string) (p : Payload) : H unit :=
  tell (mkEmit t ev p).

(** An awaited call that may update the directory. *)
Definition await {A} (f : Directory → res A * Directory) : H A :=
  λ w, let '(r, d) := f (directory w) in (r, with_directory d w, []).

(** An awaited query. *)
Definition query {A} (f : World → res A) : H A := ask f.

(** *** Socket operations *)

Definition roomKey (roomId : JsVal) : string := "room:" +:+ to_string roomId.

Definition socket_join (room : string) (w : World) : World :=
  let sids := default [] (adapter w !! room) in
  if bool_decide (sid (socket w) ∈ sids) then w
  else mkWorld (socket w) (<[room := sids ++ [sid (socket w)]]> (adapter w)) (grace w).

Definition socket_leave (room : string) (w : World) : World :=
  match adapter w !! room with
  | None => w
  | Some sids =>
      let rest := filter (λ s, s ≠ sid (socket w)) sids in
      mkWorld (socket w)
              (if decide (rest = []) then delete room (adapter w)
               else <[room := rest]> (adapter w))
              (grace w)
  end.

(** *** Requests *)

(** The payload object; a field that is absent is [JUndefined]. *)
Record Data : Type := mkData {
  roomId : JsVal;
  userId : JsVal;
  username : JsVal;
  silent : JsVal
}.

(** [const { ... } = data] throws when [data] is [undefined] or [null]. *)
Definition destructure (data : option Data) : H Data :=
  match data with
  | Some d => mret d
  | None => throw TypeError
  end.

Definition invalid (d : Data) : bool :=
  negb (truthy (roomId d)) || negb (truthy (userId d)) || negb (truthy (username d)).

Definition required : string := "roomId, userId, and username are required".

Definition broadcastUserEntered (roomId username userId userCount : JsVal) : H unit :=
  emit (ToRoomOthers (roomKey roomId)) "room:userEntered"
       (PPresence username userId (to_string username +:+ " has entered the chat")
                  userCount).

Section Handlers.
Variable svc : Services.

Definition joinRoom (data : option Data) : H unit :=
  try_catch
    (d ← destructure data;
     if invalid d then emit ToSocket "error" (PError required)
     else
       (* Initialize joinedRooms Set if not exists *)
       modify (λ w, match joinedRooms (socket w) with
                    | Some _ => w
                    | None => with_socket (mkSocket (sid (socket w)) (Some ∅)
                                             (currentRoomId (socket w))) w
                    end);;
       w ← get;
       let isFirstJoin :=
         negb (bool_decide (roomId d ∈ default ∅ (joinedRooms (socket w)))) in
       result ← await (roomService_joinRoom svc (roomId d) (userId d) (username d));
       if negb (success result) then
         emit ToSocket "joinRoom:error" (PRejected (error result))
       else
         modify (socket_join (roomKey (roomId d)));;
         modify (λ w, with_socket
                   (mkSocket (sid (socket w))
                             (Some ({[roomId d]} ∪ default ∅ (joinedRooms (socket w))))
                             (roomId d)) w);;
         userCount ← query (λ w, presence_getRoomUserCount svc (roomId d)
                                   (adapter w) (directory w));
         participants ← query (λ w, getRoomParticipants svc (roomId d) (directory w));
         level ← query (λ w, getUserLevel svc (userId d) (directory w));
         emit ToSocket "joinRoom:success"
              (PJoined (roomId d) (room result) userCount participants (Some level));;
         (if isFirstJoin
          then broadcastUserEntered (roomId d) (username d) (userId d) userCount
          else mret tt);;
         emit (ToRoom (roomKey (roomId d))) "room:userListUpdate"
              (PListUpdate userCount participants))
    (λ _, emit ToSocket "error" (PError "Failed to join room")).

Definition rejoinRoom (data : option Data) : H unit :=
  try_catch
    (d ← destructure data;
     let silent := with_default (JBool true) (silent d) in
     if invalid d then emit ToSocket "error" (PError required)
     else
       result ← await (roomService_joinRoom svc (roomId d) (userId d) (username d));
       if negb (success result) then
         emit ToSocket "rejoinRoom:error" (PRejected (error result))
       else
         modify (socket_join (roomKey (roomId d)));;
         modify (λ w, with_socket
                   (mkSocket (sid (socket w)) (joinedRooms (socket w)) (roomId d)) w);;
         userCount ← query (λ w, presence_getRoomUserCount svc (roomId d)
                                   (adapter w) (directory w));
         participants ← query (λ w, getRoomParticipants svc (roomId d) (directory w));
         emit ToSocket "rejoinRoom:success"
              (PJoined (roomId d) (room result) userCount participants None);;
         (if negb (truthy silent)
          then broadcastUserEntered (roomId d) (username d) (userId d) userCount
          else mret tt);;
         emit (ToRoom (roomKey (roomId d))) "room:userListUpdate"
              (PListUpdate userCount participants))
    (λ _, emit ToSocket "error" (PError "Failed to rejoin room")).

Definition leaveRoom (data : option Data) : H unit :=
  try_catch
    (d ← destructure data;
     if invalid d then emit ToSocket "error" (PError required)
     else
       modify (socket_leave (roomKey (roomId d)));;
       await (roomService_leaveRoom svc (roomId d) (userId d) (username d));;
       (* Clear first-join tracking *)
       modify (λ w, with_socket
                 (mkSocket (sid (socket w))
                           ((λ s : gset JsVal, s ∖ {[roomId d]}) <$> joinedRooms (socket w))
                           JNull) w);;
       userCount ← query (λ w, presence_getRoomUserCount svc (roomId d)
                                 (adapter w) (directory w));
       participants ← query (λ w, getRoomParticipants svc (roomId d) (directory w));
       emit ToSocket "leaveRoom:success" (PLeft (roomId d));;
       emit (ToRoomOthers (roomKey (roomId d))) "room:userLeft"
            (PPresence (username d) (userId d)
                       (to_string (username d) +:+ " has left the chat") userCount);;
       emit (ToRoom (roomKey (roomId d))) "room:userListUpdate"
            (PListUpdate userCount participants))
    (λ _, emit ToSocket "error" (PError "Failed to leave room")).

End Handlers.

(** The queries answer (they do not throw). *)
Definition answering (svc : Services) : Prop :=
  (∀ r a d, ∃ c, presence_getRoomUserCount svc r a d = Ok c) ∧
  (∀ r d, ∃ ps, getRoomParticipants svc r d = Ok ps) ∧
  (∀ u d, ∃ l, getUserLevel svc u d = Ok l).

(** The timer side of the process: the map, Node's timers and the callbacks
    in flight. *)
Definition timers (w : World)
    : gmap JsVal GraceTimers.TimerInfo * Loop GraceTimers.Expiry
      * gmap nat GraceTimers.Expiry :=
  (GraceTimers.disconnectGraceTimers (grace w), GraceTimers.loop (grace w),
   GraceTimers.awaiting (grace w)).

(** How many emissions of [out] carry the event name [ev]. *)
Definition count_event (ev : string) (out : list Emit) : nat :=
  length (filter (λ e, event e = ev) out).

(** Has the session's first-join set recorded [roomId]? *)
Definition has_joined (roomId : JsVal) (s : Socket) : bool :=
  bool_decide (roomId ∈ default ∅ (joinedRooms s)).

(** *** Collaborators for the examples *)

(** Modelled from the spec: roomService and the query helpers, which are not
    among the sources, over the Presence Directory, with an access check that
    admits everyone - join adds the member, leave removes it, the count is the size
    of the room's set. *)
Definition open_services : Services :=
  mkServices
    (λ roomId _ username d,
       (Ok (mkJoinResult true roomId JUndefined), addMember roomId username d))
    (λ roomId _ username d, (Ok tt, removeMember roomId username d))
    (λ roomId _ d, Ok (JNum (Z.of_nat (size (membersOf roomId d)))))
    (λ roomId d, Ok (map JStr (elements (membersOf roomId d))))
    (λ _ _, Ok (JNum 1)).

(** *** A scenario

    Alice joins the lobby on socket [s1]; the same user's other connection
    then drops, which starts her grace timer, while [s1] stays connected. *)
Definition fresh_world : World :=
  mkWorld (mkSocket "s1" None JUndefined) ∅ GraceTimers.init.

Definition alice : Data :=
  mkData (JStr "lobby") (JStr "u1") (JStr "alice") JUndefined.

Definition joined_world : World :=
  (joinRoom open_services (Some alice) fresh_world).1.2.

Definition pending_world : World :=
  mkWorld (socket joined_world) (adapter joined_world)
    (GraceTimers.addDisconnectGraceTimer (JStr "u1") (JStr "alice") (JStr "lobby")
       None (grace joined_world)).

(** Modelled from the spec: collaborators whose access check refuses
    everyone and leaves the directory alone; the queries are those of
    [open_services]. *)
Definition closed_services : Services :=
  mkServices
    (λ _ _ _ d, (Ok (mkJoinResult false JUndefined (JStr "Room is full")), d))
    (roomService_leaveRoom open_services)
    (presence_getRoomUserCount open_services)
    (getRoomParticipants open_services)
    (getUserLevel open_services).

(** Modelled from the spec: collaborators whose user count query throws; the
    rest is that of [open_services]. *)
Definition flaky_services : Services :=
  mkServices
    (roomService_joinRoom open_services)
    (roomService_leaveRoom open_services)
    (λ _ _ _, Throw (Rejected "count"))
    (getRoomParticipants open_services)
    (getUserLevel open_services).

End RoomEvents.

(** ** events/systemEvents.js: the socket handler

    The version of the module that registers [authenticate], [logout] and
    [disconnect] on each socket.  It keeps its own [disconnectGraceTimers],
    keyed by the string [`${userId}`] and holding the timer handle itself. *)

Module SystemEventsHandler.

Definition DISCONNECT_GRACE_PERIOD : Z := 30000.

Inductive Target : Type :=
  | ToSocket (sid : string)           (* socket.emit / oldSocket.emit *)
  | ToRoom (room : string)            (* io.to(room).emit *)
  | ToAll.                            (* io.emit *)

(** Payloads; ids of chat messages and timestamps are left out. *)
Inductive Payload : Type :=
  | PError (message : string)
  | PPresenceChanged (username : JsVal) (status : string)
  | PChat (roomId sender message userType : string)
  | PUserLeft (roomId : string) (username userId : JsVal) (users : list string)
  | PParticipants (roomId : string) (participants : list string)
  | PCurrently (roomId participants : string)
  | PKicked (reason : string)
  | PSession (username : JsVal)
  | PAuthenticated (id username : JsVal) (level : JsVal)
  | PNone.

Record Emit : Type := mkEmit {
  target : Target;
  event : string;
  payload : Payload
}.

(** A socket object, as far as the handler reads and writes it. *)
Record Socket : Type := mkSocket {
  userId : JsVal;
  username : JsVal;
  logoutProcessed : bool            (* socket._logoutProcessed *)
}.

(** Variables captured by the grace timer's callback. *)
Record Closure : Type := mkClosure {
  c_sid : string;
  c_timerKey : string;
  c_userId : JsVal;
  c_username : JsVal
}.

Record State : Type := mkState {
  disconnectGraceTimers : gmap string nat;
  loop : Loop Closure;
  sockets : gmap string Socket;     (* socket objects, by socket id *)
  connected : list string;          (* ids of the sockets now connected *)
  sockets_is_map : bool;            (* io.sockets instanceof Map *)
  redis : RedisPresence.Redis
}.

Definition with_timers (m : gmap string nat) (l : Loop Closure) (st : State) : State :=
  mkState m l (sockets st) (connected st) (sockets_is_map st) (redis st).
Definition with_sockets (s : gmap string Socket) (st : State) : State :=
  mkState (disconnectGraceTimers st) (loop st) s (connected st) (sockets_is_map st)
          (redis st).
Definition with_connected (c : list string) (st : State) : State :=
  mkState (disconnectGraceTimers st) (loop st) (sockets st) c (sockets_is_map st)
          (redis st).
Definition with_redis (r : RedisPresence.Redis) (st : State) : State :=
  mkState (disconnectGraceTimers st) (loop st) (sockets st) (connected st)
          (sockets_is_map st) r.

(** *** Collaborators

    userService, roomService, utils/presence, utils/redisUtils,
    utils/roomPresenceTTL and utils/xpLeveling are not among the sources:
    they are parameters over the store and may throw. *)

Record User : Type := mkUser {
  u_id : JsVal;
  u_username : JsVal;
  u_role : JsVal;
  u_error : JsVal
}.

Record Services : Type := mkServices {
  getUserLevel : JsVal → res (option JsVal);            (* userLevelData?.level *)
  getUserById : JsVal → res (option User);
  getUserByUsername : JsVal → res (option User);
  createUser : JsVal → res (option User);
  connectUser : JsVal → string → res unit;
  getRoomById : string → res (option JsVal);            (* room?.name *)
  removeUserFromRoom :
    string → JsVal → RedisPresence.Redis → res unit * RedisPresence.Redis;
  removeRoomParticipant :
    string → JsVal → RedisPresence.Redis → res unit * RedisPresence.Redis;
  getRoomUsersFromTTL : string → RedisPresence.Redis → res (list string);
  removePresence : JsVal → RedisPresence.Redis → res unit * RedisPresence.Redis;
  removeSession : JsVal → RedisPresence.Redis → res unit * RedisPresence.Redis;
  getSession : JsVal → RedisPresence.Redis → res (option string);
  setSession :
    JsVal → string → RedisPresence.Redis → res unit * RedisPresence.Redis;
  getPresence : JsVal → RedisPresence.Redis → res JsVal
}.

Definition H : Type → Type := M State Emit.

Definition emit (t : Target) (ev : string) (p : Payload) : H unit :=
  tell (mkEmit t ev p).

(** A command of the Redis client. *)
Definition cmd {A} (c : RedisPresence.R A) : H A :=
  λ st, let '(r, rd, _) := c (redis st) in (r, with_redis rd st, []).

(** An awaited helper that may update the store. *)
Definition await {A} (f : RedisPresence.Redis → res A * RedisPresence.Redis) : H A :=
  λ st, let '(r, rd) := f (redis st) in (r, with_redis rd st, []).

Definition query {A} (f : RedisPresence.Redis → res A) : H A :=
  λ st, (f (redis st), st, []).

Definition for_each {A} (l : list A) (f : A → H unit) : H unit :=
  foldr (λ a k, f a;; k) (mret tt) l.

(** [[...new Set(l)]]: first occurrences, in order. *)
Definition dedupe (l : list string) : list string :=
  reverse (remove_dups (reverse l)).

(** [l.join(', ')] *)
Fixpoint join_comma (l : list string) : string :=
  match l with
  | [] => ""
  | [x] => x
  | x :: rest => x +:+ ", " +:+ join_comma rest
  end.

Definition socket_of (sid : string) (st : State) : Socket :=
  default (mkSocket JUndefined JUndefined false) (sockets st !! sid).

(** The module-level function exported for the server. *)
Definition cancelDisconnectTimer (userId : JsVal) (st : State) : bool * State :=
  let timerKey := to_string userId in
  match disconnectGraceTimers st !! timerKey with
  | Some t =>
      (true, with_timers (delete timerKey (disconnectGraceTimers st))
                         (clearTimeout t (loop st)) st)
  | None => (false, st)
  end.

(** The [data] of [authenticate] and [logout]. *)
Record Ids : Type := mkIds { d_userId : JsVal; d_username : JsVal }.

Section Handlers.
Variable svc : Services.

Definition handleLogout (sid : string) (data : option Ids) : H unit :=
  try_catch
    (let d := default (mkIds JUndefined JUndefined) data in
     st ← get;
     let actualUserId := js_or (d_userId d) (userId (socket_of sid st)) in
     let actualUsername := js_or (d_username d) (username (socket_of sid st)) in
     if truthy actualUserId && truthy actualUsername then
       (* Idempotency guard *)
       if logoutProcessed (socket_of sid st) then mret tt
       else
         modify (λ st, with_sockets
                   (<[sid := mkSocket (userId (socket_of sid st))
                                      (username (socket_of sid st)) true]>
                      (sockets st)) st);;
         emit ToAll "presence:changed" (PPresenceChanged actualUsername "offline");;
         cmd RedisPresence.getRedisClient;;
         let uid := to_string actualUserId in
         activeRooms ← cmd (RedisPresence.sMembers ("user:" +:+ uid +:+ ":rooms"));
         activeRooms2 ← cmd (RedisPresence.sMembers ("user:" +:+ uid +:+ ":activeRooms"));
         let allRoomIds := dedupe (activeRooms ++ activeRooms2) in
         (if bool_decide (allRoomIds = []) then mret tt
          else
            userLevelData ← query (λ _, getUserLevel svc actualUserId);
            let userLevel := js_or (default JUndefined userLevelData) (JNum 1) in
            user ← query (λ _, getUserById svc actualUserId);
            let userType :=
              js_or (default JUndefined (u_role <$> user)) (JStr "normal") in
            for_each allRoomIds (λ roomId,
              await (removeUserFromRoom svc roomId actualUsername);;
              await (removeRoomParticipant svc roomId actualUsername);;
              cmd (RedisPresence.sRem ("user:" +:+ uid +:+ ":rooms") roomId);;
              cmd (RedisPresence.sRem ("user:" +:+ uid +:+ ":activeRooms") roomId);;
              cmd (RedisPresence.del ("room:" +:+ roomId +:+ ":user:" +:+ uid));;
              room ← query (λ _, getRoomById svc roomId);
              let leftMsg := to_string actualUsername +:+ " [" +:+
                             to_string userLevel +:+ "] has left" in
              emit (ToRoom ("room:" +:+ roomId)) "chat:message"
                   (PChat roomId
                          (to_string (js_or (default JUndefined room) (JStr "Room")))
                          leftMsg (to_string userType));;
              updatedUsers ← query (getRoomUsersFromTTL svc roomId);
              emit (ToRoom ("room:" +:+ roomId)) "room:user:left"
                   (PUserLeft roomId actualUsername actualUserId updatedUsers);;
              updatedParticipants ←
                cmd (RedisPresence.sMembers ("room:participants:" +:+ roomId));
              emit (ToRoom ("room:" +:+ roomId)) "room:participants:update"
                   (PParticipants roomId updatedParticipants);;
              emit (ToRoom ("room:" +:+ roomId)) "room:currently:update"
                   (PCurrently roomId (join_comma updatedParticipants))));;
         await (removePresence svc actualUsername);;
         await (removeSession svc actualUsername);;
         cmd (RedisPresence.del ("user:" +:+ uid +:+ ":rooms"));;
         cmd (RedisPresence.del ("user:" +:+ uid +:+ ":activeRooms"));;
         cmd (RedisPresence.del ("user:" +:+ uid +:+ ":ip"));;
         emit (ToSocket sid) "logout:success" PNone
     else mret tt)
    (λ _, emit (ToSocket sid) "error" (PError "Logout failed")).

(** The grace timer's callback. *)
Definition graceTimer (c : Closure) : H unit :=
  modify (λ st, with_timers (delete (c_timerKey c) (disconnectGraceTimers st))
                            (loop st) st);;
  st ← get;
  let reconnected :=
    sockets_is_map st &&
    bool_decide (Exists (λ s, to_string (userId (socket_of s st))
                              = to_string (c_userId c)) (connected st)) in
  if reconnected then mret tt
  else
    emit ToAll "presence:changed" (PPresenceChanged (c_username c) "offline");;
    handleLogout (c_sid c) (Some (mkIds (c_userId c) (c_username c))).

Definition handleDisconnect (sid : string) (reason : string) : H unit :=
  try_catch
    (st ← get;
     if negb (truthy (username (socket_of sid st))) then mret tt
     else
       let actualUsername := username (socket_of sid st) in
       let actualUserId := userId (socket_of sid st) in
       if bool_decide (reason = "client namespace disconnect")
          || bool_decide (reason = "server namespace disconnect") then
         handleLogout sid (Some (mkIds actualUserId actualUsername))
       else
         let timerKey := to_string actualUserId in
         modify (λ st, match disconnectGraceTimers st !! timerKey with
                       | Some t => with_timers (disconnectGraceTimers st)
                                               (clearTimeout t (loop st)) st
                       | None => st
                       end);;
         modify (λ st,
           let '(h, l) := setTimeout (mkClosure sid timerKey actualUserId actualUsername)
                                     DISCONNECT_GRACE_PERIOD (loop st) in
           with_timers (<[timerKey := h]> (disconnectGraceTimers st)) l st))
    (λ _, mret tt).

(** The transport closes a socket: it leaves the connected set and its
    [disconnect] handler runs. *)
Definition disconnect (sid : string) (reason : string) : H unit :=
  modify (λ st, with_connected (filter (λ s, s ≠ sid) (connected st)) st);;
  handleDisconnect sid reason.

Definition checkSession (sid : string) (name : JsVal) : H unit :=
  try_catch
    (existingSession ← query (getSession svc name);
     st ← get;
     match existingSession with
     | Some existing =>
         if bool_decide (existing ≠ "") && bool_decide (existing ≠ sid)
            && bool_decide (existing ∈ connected st) then
           (* Kick the old session *)
           emit (ToSocket existing) "session:kicked"
                (PKicked "New login from another device");;
           disconnect existing "server namespace disconnect"
         else mret tt
     | None => mret tt
     end;;
     await (setSession svc name sid);;
     emit (ToSocket sid) "session:established" (PSession name))
    (λ _, emit (ToSocket sid) "error" (PError "Failed to establish session")).

Definition authenticate (sid : string) (data : option Ids) : H unit :=
  try_catch
    (d ← match data with Some d => mret d | None => throw TypeError end;
     if negb (truthy (d_userId d)) || negb (truthy (d_username d)) then
       emit (ToSocket sid) "error" (PError "Authentication required")
     else
       let timerKey := to_string (d_userId d) in
       modify (λ st, match disconnectGraceTimers st !! timerKey with
                     | Some t => with_timers (delete timerKey (disconnectGraceTimers st))
                                             (clearTimeout t (loop st)) st
                     | None => st
                     end);;
       found ← query (λ _, getUserByUsername svc (d_username d));
       created ← match found with
                 | Some u => mret (Some u)
                 | None => query (λ _, createUser svc (d_username d))
                 end;
       match created with
       | None => emit (ToSocket sid) "error" (PError "Failed to create user")
       | Some user =>
           if bool_decide (found = None) && truthy (u_error user) then
             emit (ToSocket sid) "error" (PError (to_string (u_error user)))
           else
             query (λ _, connectUser svc (u_id user) sid);;
             modify (λ st, with_sockets
                       (<[sid := mkSocket (u_id user) (u_username user)
                                          (logoutProcessed (socket_of sid st))]>
                          (sockets st)) st);;
             (* Check and establish session *)
             checkSession sid (u_username user);;
             levelData ← query (λ _, getUserLevel svc (u_id user));
             level ← match levelData with
                     | Some l => mret l
                     | None => throw TypeError
                     end;
             query (getPresence svc (u_username user));;
             emit (ToSocket sid) "authenticated"
                  (PAuthenticated (u_id user) (u_username user) level)
       end)
    (λ _, emit (ToSocket sid) "error" (PError "Authentication failed")).

End Handlers.

(** The event loop runs a due grace timer. *)
Definition fire (svc : Services) (h : nat) : H unit :=
  λ st, match take_due h (loop st) with
        | Some (c, l) => graceTimer svc c (with_timers (disconnectGraceTimers st) l st)
        | None => (Ok tt, st, [])
        end.

Definition wait (dt : Z) : H unit :=
  modify (λ st, with_timers (disconnectGraceTimers st) (advance dt (loop st)) st).

Definition ends_with (suffix s : string) : bool :=
  String.prefix (String.rev suffix) (String.rev s).

(** Is [e] a notice to a room that somebody left: the [room:user:left]
    event, or the chat line ["<name> [<level>] has left"]? *)
Definition is_left_notice (e : Emit) : bool :=
  match target e, payload e with
  | ToRoom _, PUserLeft _ _ _ _ => true
  | ToRoom _, PChat _ _ message _ => ends_with " has left" message
  | _, _ => false
  end.

(** *** Collaborators for the examples *)

(** The result and the store of a command, without its trace. *)
Definition forget {A} (x : res A * RedisPresence.Redis * list RedisPresence.Cmd)
    : res A * RedisPresence.Redis := (x.1.1, x.1.2).

(** Modelled from the spec: the helpers the handler imports, which are not
    among the sources, over the store - every user exists with id 7 and role
    "normal", level 3, every room is named "Lobby", [removeUserFromRoom] and
    [removeRoomParticipant] take the name out of the room's two participant
    sets, and no session is stored. *)
Definition plain_services : Services :=
  mkServices
    (λ _, Ok (Some (JNum 3)))
    (λ uid, Ok (Some (mkUser uid (JStr "alice") (JStr "normal") JUndefined)))
    (λ name, Ok (Some (mkUser (JNum 7) name (JStr "normal") JUndefined)))
    (λ name, Ok (Some (mkUser (JNum 7) name (JStr "normal") JUndefined)))
    (λ _ _, Ok tt)
    (λ _, Ok (Some (JStr "Lobby")))
    (λ room name r,
       forget (RedisPresence.sRem ("room:" +:+ room +:+ ":participants")
                                  (to_string name) r))
    (λ room name r,
       forget (RedisPresence.sRem ("room:participants:" +:+ room) (to_string name) r))
    (λ room r,
       Ok (elements (RedisPresence.smembers ("room:" +:+ room +:+ ":participants") r)))
    (λ _ r, (Ok tt, r))
    (λ _ r, (Ok tt, r))
    (λ _ _, Ok None)
    (λ _ _ r, (Ok tt, r))
    (λ _ _, Ok (JStr "online")).

(** Is [e] something other than an "entered" notice? *)
Definition not_entered (e : Emit) : Prop := event e ≠ "room:userEntered".

(** The timer side of the state. *)
Definition timers (st : State) : gmap string nat * Loop Closure :=
  (disconnectGraceTimers st, loop st).

(** *** Scenarios

    User 7, "alice", is in room 42 with bob.  In [alone] she has connected
    and authenticated on one socket; in [two_devices] on a second one as
    well (no session is stored, so the first is not kicked). *)
Definition store0 : RedisPresence.Redis :=
  RedisPresence.mkRedis true true
    {[ "user:7:rooms" := {[ "42" ]};
       "room:42:participants" := {[ "alice"; "bob" ]};
       "room:participants:42" := {[ "alice"; "bob" ]} ]}.

Definition boot : State := mkState ∅ (mkLoop 0 0%nat ∅) ∅ [] false store0.

(** A client connects: a new socket object, not yet authenticated. *)
Definition connect (sid : string) : H unit :=
  modify (λ st, with_connected (connected st ++ [sid])
                  (with_sockets (<[sid := mkSocket JUndefined JUndefined false]>
                                   (sockets st)) st)).

Definition alice : Ids := mkIds (JNum 7) (JStr "alice").

Definition alone : State :=
  ((connect "s1";; authenticate plain_services "s1" (Some alice)) boot).1.2.

Definition two_devices : State :=
  ((connect "s2";; authenticate plain_services "s2" (Some alice)) alone).1.2.

(** The ids a logout works with: those of the request, else the socket's. *)
Definition logout_ids (sid : string) (data : option Ids) (st : State) : JsVal * JsVal :=
  let d := default (mkIds JUndefined JUndefined) data in
  (js_or (d_userId d) (userId (socket_of sid st)),
   js_or (d_username d) (username (socket_of sid st))).

(** *** The process, one event at a time

    What reaches the handler: a client connects, sends [authenticate],
    [session:check] or [logout], its transport closes, the server calls the
    exported [cancelDisconnectTimer], a due grace timer fires, time passes. *)
Inductive Op : Type :=
  | Connect (sid : string)
  | Authenticate (sid : string) (data : option Ids)
  | SessionCheck (sid : string) (name : JsVal)
  | Logout (sid : string) (data : option Ids)
  | Disconnect (sid : string) (reason : string)
  | Cancel (userId : JsVal)
  | Fire (h : nat)
  | Wait (dt : Z).

Definition step (svc : Services) (op : Op) : H unit :=
  match op with
  | Connect sid => connect sid
  | Authenticate sid data => authenticate svc sid data
  | SessionCheck sid name => checkSession svc sid name
  | Logout sid data => handleLogout svc sid data
  | Disconnect sid reason => disconnect svc sid reason
  | Cancel userId => modify (λ st, (cancelDisconnectTimer userId st).2)
  | Fire h => fire svc h
  | Wait dt => wait dt
  end.

Definition run (svc : Services) (ops : list Op) (st : State) : State :=
  foldl (λ st op, (step svc op st).1.2) st ops.

(** Every armed timer is the one the map records under its key, and every
    entry of the map records an armed timer of that key. *)
Definition one_timer_per_key (st : State) : Prop :=
  (∀ h t, armed (loop st) !! h = Some t →
     (h < next_handle (loop st))%nat ∧
     disconnectGraceTimers st !! c_timerKey (closure t) = Some h) ∧
  (∀ k h, disconnectGraceTimers st !! k = Some h →
     ∃ t, armed (loop st) !! h = Some t ∧ c_timerKey (closure t) = k).

End SystemEventsHandler.

(** ** The AbortController variant of the grace timers

    The third module of the same name keeps, per user, the timer and an
    [AbortController]; its [addDisconnectGraceTimer] has no guard. *)

Module AbortTimers.

(** The value stored in [disconnectGraceTimers]: the timer's handle and the
    controller, named by the order of its creation. *)
Record TimerInfo : Type := mkTimerInfo {
  timer : nat;
  abortController : nat
}.

(** Variables captured by the timer's callback. *)
Record Closure : Type := mkClosure {
  c_userId : JsVal;
  c_controller : nat
}.

Record State : Type := mkState {
  disconnectGraceTimers : gmap JsVal TimerInfo;
  loop : Loop Closure;
  aborted : gset nat;             (* controllers whose signal is aborted *)
  next_controller : nat;
  console : list string           (* lines written by console.log, oldest first *)
}.

Definition init : State := mkState ∅ (mkLoop 0 0%nat ∅) ∅ 0%nat [].

Definition logoutUser (userId : JsVal) (st : State) : State :=
  mkState (disconnectGraceTimers st) (loop st) (aborted st) (next_controller st)
          (console st ++ ["User " +:+ to_string userId +:+ " has been logged out."]).

(** [duration] is passed on to [setTimeout]; [None] is a call without it. *)
Definition addDisconnectGraceTimer (userId : JsVal) (duration : option Z) (st : State)
    : State :=
  let abortController := next_controller st in
  let '(timer, l) := setTimeout (mkClosure userId abortController)
                                (default 0 duration) (loop st) in
  mkState (<[userId := mkTimerInfo timer abortController]> (disconnectGraceTimers st))
          l (aborted st) (Datatypes.S (next_controller st)) (console st).

Definition reconnectUser (userId : JsVal) (st : State) : State :=
  match disconnectGraceTimers st !! userId with
  | Some timerInfo =>
      mkState (delete userId (disconnectGraceTimers st))
              (clearTimeout (timer timerInfo) (loop st))
              ({[abortController timerInfo]} ∪ aborted st)
              (next_controller st) (console st)
  | None => st
  end.

(** The timer's callback. *)
Definition expire (c : Closure) (st : State) : State :=
  if bool_decide (c_controller c ∈ aborted st) then st
  else logoutUser (c_userId c) st.

(** The event loop runs a due timer. *)
Definition fire (h : nat) (st : State) : State :=
  match take_due h (loop st) with
  | Some (c, l) =>
      expire c (mkState (disconnectGraceTimers st) l (aborted st) (next_controller st)
                        (console st))
  | None => st
  end.

Definition wait (dt : Z) (st : State) : State :=
  mkState (disconnectGraceTimers st) (advance dt (loop st)) (aborted st)
          (next_controller st) (console st).

(** Controllers and timers are named in the order of their creation: the
    names in use lie below the next ones. *)
Definition well_formed (st : State) : Prop :=
  (∀ c, c ∈ aborted st → (c < next_controller st)%nat) ∧
  (∀ h t, armed (loop st) !! h = Some t → (h < next_handle (loop st))%nat).

End AbortTimers.

(** ** utils/redisPresence.js: the system messages of a room *)

Module SystemMessages.

(** The store with its lists; the sets and the two availability flags are
    those of [RedisPresence.Redis]. *)
Record Store : Type := mkStore {
  redis : RedisPresence.Redis;
  lists : gmap string (list string)
}.

(** Commands sent to the store, in order. *)
Inductive Cmd : Type :=
  | LPUSH (key value : string)
  | LTRIM (key : string) (start stop : Z)
  | LRANGE (key : string) (start stop : Z).

Definition L : Type → Type := M Store Cmd.

Definition getRedisClient : L unit :=
  λ s, if RedisPresence.client_ready (redis s) then (Ok tt, s, [])
       else (Throw (Rejected "redis client"), s, []).

Definition send {A} (c : Cmd) (run : Store → A * Store) : L A :=
  λ s, if RedisPresence.up (redis s) then let '(a, s') := run s in (Ok a, s', [c])
       else (Throw (Rejected "redis command"), s, [c]).

Definition llist (key : string) (s : Store) : list string :=
  default [] (lists s !! key).

Definition with_list (key : string) (l : list string) (s : Store) : Store :=
  mkStore (redis s) (if decide (l = []) then delete key (lists s)
                     else <[key := l]> (lists s)).

(** Redis's range of a list: both ends are inclusive, a negative index counts
    from the end, an end past the last element is the last element. *)
Definition range (l : list string) (start stop : Z) : list string :=
  let len := Z.of_nat (length l) in
  let s := if start <? 0 then Z.max (len + start) 0 else start in
  let e := Z.min (if stop <? 0 then len + stop else stop) (len - 1) in
  if (e <? s) then []
  else take (Z.to_nat (e - s + 1)) (drop (Z.to_nat s) l).

Definition lPush (key value : string) : L unit :=
  send (LPUSH key value) (λ s, (tt, with_list key (value :: llist key s) s)).

Definition lTrim (key : string) (start stop : Z) : L unit :=
  send (LTRIM key start stop)
       (λ s, (tt, with_list key (range (llist key s) start stop) s)).

Definition lRange (key : string) (start stop : Z) : L (list string) :=
  send (LRANGE key start stop) (λ s, (range (llist key s) start stop, s)).

(** The object [addSystemMessage] stores. *)
Record SystemMessage : Type := mkSystemMessage {
  message : JsVal;
  timestamp : string;
  type : string
}.

(** [JSON.stringify] and [JSON.parse] on those objects. *)
Record Json : Type := mkJson {
  stringify : SystemMessage → string;
  parse : string → res SystemMessage
}.

Definition ROOM_SYSTEM_KEY : JsVal → string := RedisPresence.ROOM_SYSTEM_KEY.
Definition MAX_SYSTEM_MESSAGES : Z := RedisPresence.MAX_SYSTEM_MESSAGES.

Section Functions.
Variable JSON : Json.

(** [now] is [new Date().toISOString()]. *)
Definition addSystemMessage (roomId message : JsVal) (now : string) : L bool :=
  try_catch
    (getRedisClient;;
     let messageData := stringify JSON (mkSystemMessage message now "system") in
     lPush (ROOM_SYSTEM_KEY roomId) messageData;;
     lTrim (ROOM_SYSTEM_KEY roomId) 0 (MAX_SYSTEM_MESSAGES - 1);;
     mret true)
    (λ _, mret false).

(** [messages.map(msg => JSON.parse(msg))]: the first entry that does not
    parse throws. *)
Fixpoint parse_all (messages : list string) : L (list SystemMessage) :=
  match messages with
  | [] => mret []
  | msg :: rest =>
      m ← ask (λ _, parse JSON msg);
      ms ← parse_all rest;
      mret (m :: ms)
  end.

(** [limit] is the optional second argument, 50 when left out. *)
Definition getSystemMessages (roomId : JsVal) (limit : option Z)
    : L (list SystemMessage) :=
  try_catch
    (getRedisClient;;
     messages ← lRange (ROOM_SYSTEM_KEY roomId) 0 (default 50 limit - 1);
     parse_all messages)
    (λ _, mret []).

End Functions.

(** A codec for the examples: the message text itself, and nothing parses
    but text that starts with a letter [m]. *)
Definition text_json : Json :=
  mkJson (λ m, "m" +:+ to_string (message m))
         (λ s, if String.prefix "m" s
               then Ok (mkSystemMessage
                          (JStr (String.substring 1 (String.length s - 1)%nat s))
                          "" "system")
               else Throw (Rejected "SyntaxError")).

End SystemMessages.

(** * Properties *)

(** Unfold the monad's plumbing. *)
Ltac unfold_m :=
  repeat (unfold mbind, mret, M_bind, M_ret, bind, ret, throw, try_catch,
            tell, modify, get, ask in *; cbn in *).

(** ** The monad's judgements *)

Section MonadFacts.
Context {S O : Type}.
Implicit Types (s : S).

Lemma bind_ret_l {A B} (a : A) (k : A → M S O B) s : (mret a ≫= k) s = k a s.
Proof. unfold_m. by destruct (k a s) as [[r s2] o2]. Qed.

Section Keeps.
Context {X : Type} (f : S → X).

Lemma keeps_ret {A} (a : A) : keeps f (mret a : M S O A).
Proof. by intros s. Qed.
Lemma keeps_throw {A} e : keeps f (throw e : M S O A).
Proof. by intros s. Qed.
Lemma keeps_tell o : keeps f (tell o : M S O unit).
Proof. by intros s. Qed.
Lemma keeps_get : keeps f (get : M S O S).
Proof. by intros s. Qed.
Lemma keeps_ask {A} (g : S → res A) : keeps f (ask g : M S O A).
Proof. by intros s. Qed.
Lemma keeps_modify (g : S → S) : (∀ s, f (g s) = f s) → keeps f (modify g : M S O unit).
Proof. intros Hg s. apply Hg. Qed.

Lemma keeps_bind {A B} (m : M S O A) (k : A → M S O B) :
  keeps f m → (∀ a, keeps f (k a)) → keeps f (m ≫= k).
Proof.
  intros Hm Hk s. specialize (Hm s). unfold_m.
  destruct (m s) as [[[a|e] s1] o1]; cbn in *; [|done].
  specialize (Hk a s1). destruct (k a s1) as [[r s2] o2]. cbn in *. congruence.
Qed.

Lemma keeps_try_catch {A} (m : M S O A) (h : Exn → M S O A) :
  keeps f m → (∀ e, keeps f (h e)) → keeps f (try_catch m h).
Proof.
  intros Hm Hh s. specialize (Hm s). unfold try_catch.
  destruct (m s) as [[[a|e] s1] o1]; cbn in *; [done|].
  specialize (Hh e s1). destruct (h e s1) as [[r s2] o2]. cbn in *. congruence.
Qed.
End Keeps.

Section Writes.
Context (W : O → Prop).

Lemma writes_ret {A} (a : A) : writes W (mret a : M S O A).
Proof. intros s. constructor. Qed.
Lemma writes_throw {A} e : writes W (throw e : M S O A).
Proof. intros s. constructor. Qed.
Lemma writes_tell o : W o → writes W (tell o : M S O unit).
Proof. intros Ho s. by repeat constructor. Qed.
Lemma writes_get : writes W (get : M S O S).
Proof. intros s. constructor. Qed.
Lemma writes_ask {A} (g : S → res A) : writes W (ask g : M S O A).
Proof. intros s. constructor. Qed.
Lemma writes_modify (g : S → S) : writes W (modify g : M S O unit).
Proof. intros s. constructor. Qed.

Lemma writes_bind {A B} (m : M S O A) (k : A → M S O B) :
  writes W m → (∀ a, writes W (k a)) → writes W (m ≫= k).
Proof.
  intros Hm Hk s. specialize (Hm s). unfold_m.
  destruct (m s) as [[[a|e] s1] o1]; cbn in *; [|done].
  specialize (Hk a s1). destruct (k a s1) as [[r s2] o2]. cbn in *.
  by apply Forall_app.
Qed.

Lemma writes_throw_bind {A B} e (k : A → M S O B) :
  writes W (throw e ≫= k).
Proof. intros s. constructor. Qed.

Lemma writes_ret_bind {A B} (a : A) (k : A → M S O B) :
  writes W (k a) → writes W (mret a ≫= k).
Proof. intros Hk s. rewrite bind_ret_l. apply Hk. Qed.

Lemma writes_try_catch {A} (m : M S O A) (h : Exn → M S O A) :
  writes W m → (∀ e, writes W (h e)) → writes W (try_catch m h).
Proof.
  intros Hm Hh s. specialize (Hm s). unfold try_catch.
  destruct (m s) as [[[a|e] s1] o1]; cbn in *; [done|].
  specialize (Hh e s1). destruct (h e s1) as [[r s2] o2]. cbn in *.
  by apply Forall_app.
Qed.
End Writes.

Lemma hoare_keeps {A X} (f : S → X) (m : M S O A) (P Q : S → Prop) :
  keeps f m → (∀ s s', f s' = f s → P s → Q s') → hoare P m Q.
Proof. intros Hm HPQ s HP. by apply (HPQ s), HP. Qed.

Lemma hoare_ret_bind {A B} (a : A) (k : A → M S O B) (P Q : S → Prop) :
  hoare P (k a) Q → hoare P (mret a ≫= k) Q.
Proof. intros Hk s HP. rewrite bind_ret_l. by apply Hk. Qed.

Lemma hoare_modify_bind {B} (g : S → S) (k : unit → M S O B) (P R Q : S → Prop) :
  (∀ s, P s → R (g s)) → hoare R (k tt) Q → hoare P (modify g ≫= k) Q.
Proof.
  intros Hg Hk s HP. specialize (Hk (g s) (Hg s HP)). unfold_m.
  by destruct (k tt (g s)) as [[r s2] o2].
Qed.

Lemma hoare_try_catch_tell {A} (m : M S O A) (h : Exn → M S O A) (P Q : S → Prop) :
  hoare P m Q → (∀ e, keeps id (h e)) → hoare P (try_catch m h) Q.
Proof.
  intros Hm Hh s HP. specialize (Hm s HP). unfold try_catch.
  destruct (m s) as [[[a|e] s1] o1]; cbn in *; [done|].
  specialize (Hh e s1). destruct (h e s1) as [[r s2] o2]. cbn in *. by subst.
Qed.
End MonadFacts.

(** ** The grace-period module *)

Module GraceTimersFacts.
Import GraceTimers.

Lemma tracked_init : tracked init.
Proof. split; [done|]. intros h t H. cbn in H. by rewrite lookup_empty in H. Qed.

Lemma tracked_add u n r d st :
  tracked st → tracked (addDisconnectGraceTimer u n r d st).
Proof.
  intros [Hw Ht]. unfold addDisconnectGraceTimer.
  destruct (disconnectGraceTimers st !! u) as [ti|] eqn:Hu; [by split|].
  split; [done|]. cbn. intros h t Hh.
  destruct (decide (h = next_handle (loop st))) as [->|Hne].
  - rewrite lookup_insert_eq in Hh. injection Hh as <-. cbn.
    split; [lia|]. rewrite lookup_insert_eq. eauto.
  - rewrite lookup_insert_ne in Hh by done.
    destruct (Ht h t Hh) as [Hlt (ti & Hti & Htm)].
    split; [lia|]. exists ti. split; [|done].
    rewrite lookup_insert_ne; [done|]. intros ->. congruence.
Qed.

Lemma tracked_cancel u st :
  tracked st → tracked (cancelDisconnectTimer u st).2.
Proof.
  intros [Hw Ht]. unfold cancelDisconnectTimer.
  destruct (disconnectGraceTimers st !! u) as [ti|] eqn:Hu; [|by split].
  split; [done|]. cbn. intros h t Hh.
  apply lookup_delete_Some in Hh as [Hne Hh].
  destruct (Ht h t Hh) as [Hlt (ti' & Hti & Htm)].
  split; [done|]. exists ti'. split; [|done].
  rewrite lookup_delete_ne; [done|]. intros ->. congruence.
Qed.

Lemma tracked_expire h o st :
  tracked st → tracked (step (step st (Fire h)) (Settle h o)).
Proof.
  intros [Hw Ht]. cbn. unfold fire, take_due.
  destruct (armed (loop st) !! h) as [t|] eqn:Hh; cbn;
    [destruct (due t <=? now (loop st)); cbn|];
    try (unfold settle; rewrite Hw, lookup_empty; by split).
  unfold settle; cbn. rewrite lookup_insert_eq, Hw, delete_insert_eq, delete_empty.
  destruct (Ht h t Hh) as [_ (ti & Hti & Htm)].
  destruct (truthy (e_roomId (closure t)) && negb (removed o)); cbn.
  - split; [done|]. cbn. intros h' t' Hh'.
    apply lookup_delete_Some in Hh' as [_ Hh']. by apply Ht.
  - split; [done|]. cbn. intros h' t' Hh'.
    apply lookup_delete_Some in Hh' as [Hne Hh'].
    destruct (Ht h' t' Hh') as [Hlt (ti' & Hti' & Htm')].
    split; [done|]. exists ti'. split; [|done].
    rewrite lookup_delete_ne; [done|]. intros Heq.
    rewrite Heq in Hti. congruence.
Qed.

Lemma tracked_sequential ss st :
  tracked st → tracked (run (sequential ss) st).
Proof.
  revert st. induction ss as [|s ss IH]; intros st Hst; [done|].
  unfold sequential, run in *. cbn. rewrite foldl_app. apply IH.
  destruct s as [u n r d|u|dt|h o]; cbn.
  - by apply tracked_add.
  - by apply tracked_cancel.
  - destruct Hst as [Hw Ht]. by split.
  - by apply (tracked_expire h o).
Qed.

Lemma tracked_one_timer st : tracked st → one_timer_per_user st.
Proof.
  intros [_ Ht] h1 h2 t1 t2 H1 H2 Heq.
  destruct (Ht h1 t1 H1) as [_ (ti1 & Hti1 & <-)].
  destruct (Ht h2 t2 H2) as [_ (ti2 & Hti2 & <-)].
  rewrite Heq in Hti1. congruence.
Qed.

(** X1: when every expiry callback runs to its end before the next event, no
    schedule of disconnects, reconnects and expiries arms two timers for
    one user. *)
Theorem sequential_one_timer_per_user ss :
  one_timer_per_user (run (sequential ss) init).
Proof. apply tracked_one_timer, tracked_sequential, tracked_init. Qed.

(** A start for a user whose entry exists changes nothing at all. *)
Lemma addDisconnectGraceTimer_existing u n r d st :
  is_Some (disconnectGraceTimers st !! u) →
  addDisconnectGraceTimer u n r d st = st.
Proof. intros [ti Hti]. unfold addDisconnectGraceTimer. by rewrite Hti. Qed.

(** Started with the default duration, the timer is due 1,800,000 ms later. *)

(** Started with the default duration, the timer is due 1,800,000 ms later. *)
Lemma addDisconnectGraceTimer_default_due u n r st :
  disconnectGraceTimers st !! u = None →
  ∃ ti t,
    disconnectGraceTimers (addDisconnectGraceTimer u n r None st) !! u = Some ti ∧
    armed (loop (addDisconnectGraceTimer u n r None st)) !! timer ti = Some t ∧
    due t - startedAt ti = 1800000.
Proof.
  intros Hu. unfold addDisconnectGraceTimer. rewrite Hu. cbn.
  eexists _, _. rewrite lookup_insert_eq. split; [reflexivity|]. cbn.
  rewrite lookup_insert_eq. split; [reflexivity|]. cbn.
  unfold DISCONNECT_GRACE_PERIOD. lia.
Qed.

Lemma cancelDisconnectTimer_clears u st :
  disconnectGraceTimers (cancelDisconnectTimer u st).2 !! u = None ∧
  ((cancelDisconnectTimer u st).1 = bool_decide (is_Some (disconnectGraceTimers st !! u))) ∧
  (∀ ti, disconnectGraceTimers st !! u = Some ti →
         armed (loop (cancelDisconnectTimer u st).2) !! timer ti = None).
Proof.
  unfold cancelDisconnectTimer.
  destruct (disconnectGraceTimers st !! u) as [ti|] eqn:Hu; cbn.
  - rewrite lookup_delete_eq. repeat split.
    intros ? [= <-]. by rewrite lookup_delete_eq.
  - repeat split; [done|]. intros ? [=].
Qed.


(** C2 (the code departs from the claim): the expiry callback deletes the
    map entry only after its awaits, so a reconnect and disconnect that land
    in between lose their entry to the stale callback; the timer they armed
    stays armed, unknown to the map, and the next disconnect arms a second
    one.  After the schedule, timers 1 and 2 are both armed for [u1]. *)
Theorem stale_expiry_arms_two_timers :
  let st := run stale_expiry_schedule init in
  armed_for u1 st = [2%nat; 1%nat] ∧
  (∃ t1 t2, armed (loop st) !! 1%nat = Some t1 ∧ armed (loop st) !! 2%nat = Some t2 ∧
            e_userId (closure t1) = u1 ∧ e_userId (closure t2) = u1 ∧
            now (loop st) < due t1 ∧ now (loop st) < due t2) ∧
  ¬ one_timer_per_user st.
Proof.
  cbn zeta. split; [by vm_compute|]. split.
  - eexists _, _. vm_compute. repeat split; reflexivity.
  - intros H.
    assert (1%nat = 2%nat) as Habs; [|discriminate].
    eapply H; vm_compute; reflexivity.
Qed.

(** *** Reachable states, round trips and the remaining time *)

Lemma sane_init : sane init.
Proof.
  split; [|split]; intros *; cbn; intros H; rewrite lookup_empty in H; done.
Qed.

Lemma sane_step st op : sane st → sane (step st op).
Proof.
  intros (Ha & He & Hi). destruct op as [u n r d|u|dt|h|h o]; cbn.
  - unfold addDisconnectGraceTimer.
    destruct (disconnectGraceTimers st !! u) as [ti|] eqn:Hu; [done|]. cbn.
    split; [|split]; cbn.
    + intros h t Hh. apply lookup_insert_Some in Hh as [[<- _]|[_ Hh]]; [lia|].
      apply Ha in Hh. lia.
    + intros v ti Hv. apply lookup_insert_Some in Hv as [[<- <-]|[_ Hv]]; cbn; [lia|].
      apply He in Hv. lia.
    + intros v w ti tj Hv Hw Heq.
      apply lookup_insert_Some in Hv as [[<- <-]|[Hnv Hv]];
        apply lookup_insert_Some in Hw as [[<- <-]|[Hnw Hw]]; cbn in *; try done.
      * apply He in Hw. lia.
      * apply He in Hv. lia.
      * by apply (Hi v w ti tj).
  - unfold cancelDisconnectTimer.
    destruct (disconnectGraceTimers st !! u) as [ti|] eqn:Hu; [|done]. cbn.
    split; [|split]; cbn.
    + intros h t [_ Hh]%lookup_delete_Some. by apply Ha in Hh.
    + intros v tj [_ Hv]%lookup_delete_Some. by apply He in Hv.
    + intros v w tj tk [_ Hv]%lookup_delete_Some [_ Hw]%lookup_delete_Some.
      by apply Hi.
  - split; [done|]. split; [|done]. cbn. intros v ti Hv. apply He in Hv. lia.
  - unfold fire, take_due. destruct (armed (loop st) !! h) as [t|]; [|done].
    destruct (due t <=? now (loop st)); [|done]. cbn.
    split; [|done]. cbn. intros h' t' [_ Hh]%lookup_delete_Some. by apply Ha in Hh.
  - unfold settle. destruct (awaiting st !! h) as [c|]; [|done].
    destruct (truthy (e_roomId c) && negb (removed o)); cbn; [done|].
    split; [done|]. split; cbn.
    + intros v tj [_ Hv]%lookup_delete_Some. by apply He in Hv.
    + intros v w tj tk [_ Hv]%lookup_delete_Some [_ Hw]%lookup_delete_Some.
      by apply Hi.
Qed.

Lemma sane_run ops st : sane st → sane (run ops st).
Proof.
  revert st. induction ops as [|op ops IH]; intros st Hst; [done|].
  cbn. apply IH. by apply sane_step.
Qed.

(** X3: whatever the process has been through - any schedule of disconnects,
    reconnects, waits, firings and finished or failed expiries - the
    remaining grace period reported for any user lies between 0 and
    1,800,000 ms. *)
Theorem remaining_within_bounds ops u :
  0 ≤ getRemainingGracePeriod u (run ops init) ≤ DISCONNECT_GRACE_PERIOD.
Proof.
  destruct (sane_run ops init sane_init) as (_ & He & _).
  unfold getRemainingGracePeriod.
  destruct (disconnectGraceTimers (run ops init) !! u) as [ti|] eqn:Hu;
    [|unfold DISCONNECT_GRACE_PERIOD; lia].
  apply He in Hu. unfold DISCONNECT_GRACE_PERIOD. lia.
Qed.


(** X2: in any reachable state, starting a timer for a user without one and
    cancelling it gives [true] and puts the map and Node's timers back as
    they were; a second cancel then gives [false] and changes nothing. *)
Theorem start_cancel_round_trip ops u n r d :
  let st := run ops init in
  disconnectGraceTimers st !! u = None →
  ∃ st',
    cancelDisconnectTimer u (addDisconnectGraceTimer u n r d st) = (true, st') ∧
    disconnectGraceTimers st' = disconnectGraceTimers st ∧
    armed (loop st') = armed (loop st) ∧
    now (loop st') = now (loop st) ∧
    directory st' = directory st ∧
    cancelDisconnectTimer u st' = (false, st').
Proof.
  intros st Hu. destruct (sane_run ops init sane_init) as (Ha & _ & _). fold st in Ha.
  unfold addDisconnectGraceTimer. rewrite Hu. cbn.
  unfold cancelDisconnectTimer at 1. cbn. rewrite lookup_insert_eq. cbn.
  eexists. split; [reflexivity|]. cbn.
  rewrite delete_insert_id by done.
  assert (armed (loop st) !! next_handle (loop st) = None) as Hfresh.
  { destruct (armed (loop st) !! next_handle (loop st)) as [t|] eqn:Ht; [|done].
    apply Ha in Ht. lia. }
  rewrite delete_insert_id by done. repeat split.
  unfold cancelDisconnectTimer. cbn. by rewrite Hu.
Qed.

(** X5: in any reachable state, starting or cancelling the timer of one user
    leaves every other user's entry as it is and that user's timer armed or
    not as it was. *)
Theorem other_users_untouched ops u v n r d :
  u ≠ v →
  let st := run ops init in
  let started := addDisconnectGraceTimer u n r d st in
  let cancelled := (cancelDisconnectTimer u st).2 in
  disconnectGraceTimers started !! v = disconnectGraceTimers st !! v ∧
  disconnectGraceTimers cancelled !! v = disconnectGraceTimers st !! v ∧
  ∀ ti, disconnectGraceTimers st !! v = Some ti →
        armed (loop started) !! timer ti = armed (loop st) !! timer ti ∧
        armed (loop cancelled) !! timer ti = armed (loop st) !! timer ti.
Proof.
  intros Huv st started cancelled.
  destruct (sane_run ops init sane_init) as (_ & He & Hi). fold st in He, Hi.
  subst started cancelled. unfold addDisconnectGraceTimer, cancelDisconnectTimer.
  destruct (disconnectGraceTimers st !! u) as [tu|] eqn:Hu; cbn.
  - rewrite lookup_delete_ne by done. split; [done|]. split; [done|].
    intros ti Hv. split; [done|].
    rewrite lookup_delete_ne; [done|]. intros Heq. by apply Huv, (Hi u v tu ti).
  - rewrite lookup_insert_ne by done. split; [done|]. split; [done|].
    intros ti Hv. split; [|done].
    apply He in Hv. rewrite lookup_insert_ne by lia. done.
Qed.

Lemma other_users_untouched_witness :
  let st := run [Disconnect (JStr "u2") (JStr "bob") (JStr "lobby") None] init in
  armed (loop (addDisconnectGraceTimer (JStr "u1") (JStr "alice") (JStr "lobby") None st))
    !! 0%nat = armed (loop st) !! 0%nat ∧
  armed (loop (cancelDisconnectTimer (JStr "u1") st).2) !! 0%nat
    = armed (loop st) !! 0%nat.
Proof.
  cbn zeta.
  destruct (other_users_untouched
              [Disconnect (JStr "u2") (JStr "bob") (JStr "lobby") None]
              (JStr "u1") (JStr "u2") (JStr "alice") (JStr "lobby") None)
    as (_ & _ & H); [discriminate|].
  apply (H (mkTimerInfo 0 (JStr "bob") (JStr "lobby") 0)). reflexivity.
Defined.

(** X7: when [presence.removeUserFromRoom] rejects in the expiry callback,
    the callback ends before its [delete]: the timer is spent, the user's
    entry stays in the map and the directory is as it was, and from then on
    every [addDisconnectGraceTimer] for that user is a no-op. *)
Theorem rejected_expiry_blocks_restart h o st st1 st2 c :
  fire h st = Some st1 → awaiting st1 !! h = Some c →
  truthy (e_roomId c) = true → removed o = false →
  settle h o st1 = Some st2 →
  disconnectGraceTimers st2 = disconnectGraceTimers st ∧
  directory st2 = directory st ∧
  armed (loop st2) !! h = None ∧
  (is_Some (disconnectGraceTimers st !! e_userId c) →
   ∀ n r d, addDisconnectGraceTimer (e_userId c) n r d st2 = st2).
Proof.
  unfold fire, take_due, settle. intros Hf Hc Hr Ho Hs.
  destruct (armed (loop st) !! h) as [t|]; [|done].
  destruct (due t <=? now (loop st)); [|done]. injection Hf as <-.
  rewrite Hc, Hr, Ho in Hs. cbn in Hs. injection Hs as <-. cbn.
  rewrite lookup_delete_eq. repeat split.
  intros [ti Hti] n r d. unfold addDisconnectGraceTimer. cbn. by rewrite Hti.
Qed.

Lemma rejected_expiry_blocks_restart_witness :
  let st := run [Disconnect (JStr "u1") (JStr "alice") (JStr "lobby") None;
                 Wait 1800000] init in
  let st2 := run [Fire 0%nat; Settle 0%nat (mkOutcome false true)] st in
  is_Some (disconnectGraceTimers st2 !! JStr "u1") ∧
  armed (loop st2) !! 0%nat = None ∧
  addDisconnectGraceTimer (JStr "u1") (JStr "alice") (JStr "lobby") None st2 = st2.
Proof.
  cbn zeta.
  set (st := run [Disconnect (JStr "u1") (JStr "alice") (JStr "lobby") None;
                  Wait 1800000] init).
  set (st2 := run [Fire 0%nat; Settle 0%nat (mkOutcome false true)] st).
  destruct (rejected_expiry_blocks_restart 0%nat (mkOutcome false true) st
              (default st (fire 0%nat st)) st2
              (mkExpiry (JStr "u1") (JStr "alice") (JStr "lobby")))
    as (Hm & _ & Ha & Hno); try reflexivity.
  split; [rewrite Hm; by eexists|]. split; [exact Ha|].
  apply (Hno (ltac:(by eexists))).
Defined.


Lemma start_cancel_round_trip_witness :
  ∃ st',
    cancelDisconnectTimer (JStr "u1")
      (addDisconnectGraceTimer (JStr "u1") (JStr "alice") (JStr "lobby") None
         (run [Disconnect (JStr "u2") (JStr "bob") (JStr "lobby") None] init))
    = (true, st') ∧
    cancelDisconnectTimer (JStr "u1") st' = (false, st').
Proof.
  destruct (start_cancel_round_trip
              [Disconnect (JStr "u2") (JStr "bob") (JStr "lobby") None]
              (JStr "u1") (JStr "alice") (JStr "lobby") None)
    as (st' & H1 & _ & _ & _ & _ & H6); [reflexivity|].
  exists st'. split; [exact H1 | exact H6].
Defined.

End GraceTimersFacts.

(** ** The Connection Registry and its callers *)

Module RegistryFacts.
Import SocketStore RedisPresence.

Lemma isSocketReady_spec (ss : State) :
  isSocketReady ss = true ↔ isReady ss = true ∧ ∃ ns, chatNamespace ss = Some ns.
Proof.
  unfold isSocketReady. destruct (isReady ss), (chatNamespace ss) as [ns|]; cbn;
    split; try done; try (intros [? [? ?]]; done). eauto.
Qed.

Lemma not_ready_unknown (ss : State) roomId :
  isSocketReady ss = false →
  getSocketRoomCount roomId ss = None ∧ getSocketRoomUsers roomId ss = None.
Proof.
  unfold isSocketReady, getSocketRoomCount, getSocketRoomUsers.
  destruct (isReady ss), (chatNamespace ss); cbn; done.
Qed.

Lemma ready_known (ss : State) roomId :
  isSocketReady ss = true →
  is_Some (getSocketRoomCount roomId ss) ∧ is_Some (getSocketRoomUsers roomId ss).
Proof.
  intros [Hr [ns Hns]]%isSocketReady_spec.
  unfold getSocketRoomCount, getSocketRoomUsers. rewrite Hr, Hns.
  destruct (rooms ns !! roomKey roomId); eauto.
Qed.

(** The module is loaded not ready, and [setIo] makes it ready. *)
Lemma init_not_ready : isSocketReady init = false.
Proof. reflexivity. Qed.

Lemma setIo_ready io ss : isSocketReady (setIo io ss) = true.
Proof. reflexivity. Qed.

(** C8: before [setIo] the registry answers [null] (here [None]), not zero;
    once ready it always answers with a number or a list.  The two callers,
    [getRoomUserCount] and [getRoomUsers], hand back a ready answer as it is
    (zero and the empty list included) without sending anything to the
    store, and query the store exactly when the answer was [null]. *)
Theorem registry_unknown_is_the_only_fallback
    (ss : State) (roomId : JsVal) (r : Redis) :
  (isSocketReady ss = false →
     getSocketRoomCount roomId ss = None ∧ getSocketRoomUsers roomId ss = None) ∧
  (isSocketReady ss = true →
     is_Some (getSocketRoomCount roomId ss) ∧ is_Some (getSocketRoomUsers roomId ss)) ∧
  (∀ n, getSocketRoomCount roomId ss = Some n →
     getRoomUserCount ss roomId r = (Ok n, r, [])) ∧
  (∀ us, getSocketRoomUsers roomId ss = Some us →
     getRoomUsers ss roomId r = (Ok (map username us), r, [])) ∧
  (getSocketRoomCount roomId ss = None → client_ready r = true →
     (getRoomUserCount ss roomId r).2 = [SCARD (ROOM_PARTICIPANTS_KEY roomId)]) ∧
  (getSocketRoomUsers roomId ss = None → client_ready r = true →
     (getRoomUsers ss roomId r).2 = [SMEMBERS (ROOM_PARTICIPANTS_KEY roomId)]).
Proof.
  split; [apply not_ready_unknown|]. split; [apply ready_known|].
  repeat split.
  - intros n Hn. unfold getRoomUserCount, try_catch. by rewrite Hn.
  - intros us Hus. unfold getRoomUsers, try_catch. by rewrite Hus.
  - intros Hn Hc. unfold getRoomUserCount. rewrite Hn.
    unfold getRedisClient, sCard, send. unfold_m. rewrite Hc.
    destruct (up r); reflexivity.
  - intros Hn Hc. unfold getRoomUsers. rewrite Hn.
    unfold getRedisClient, sMembers, send. unfold_m. rewrite Hc.
    destruct (up r); reflexivity.
Qed.

Lemma registry_unknown_is_the_only_fallback_witness :
  (getSocketRoomCount (JNum 7) init = None ∧
   (getRoomUserCount init (JNum 7) stale_store).2 = [SCARD "room:7:participants"]) ∧
  getRoomUserCount empty_ready (JNum 7) stale_store = (Ok 0%nat, stale_store, []) ∧
  getRoomUsers empty_ready (JNum 7) stale_store = (Ok [], stale_store, []).
Proof.
  destruct (registry_unknown_is_the_only_fallback init (JNum 7) stale_store)
    as (H1 & _ & _ & _ & H5 & _).
  destruct (registry_unknown_is_the_only_fallback empty_ready (JNum 7) stale_store)
    as (_ & _ & H3 & H4 & _ & _).
  split; [split|split].
  - apply H1. reflexivity.
  - apply H5; reflexivity.
  - apply H3. reflexivity.
  - apply (H4 []). reflexivity.
Defined.

Lemma ROOM_USERS_KEY_unbound : module_scope !! "ROOM_USERS_KEY" = None.
Proof. by vm_compute. Qed.

Lemma ROOM_PARTICIPANTS_KEY_bound :
  module_scope !! "ROOM_PARTICIPANTS_KEY" = Some (KeyBuilder ROOM_PARTICIPANTS_KEY).
Proof. by vm_compute. Qed.

(** With the store up, [removeUserFromRoom], whose key builder is bound,
    does send its command. *)
Lemma removeUserFromRoom_sends roomId name r :
  client_ready r = true → up r = true →
  (removeUserFromRoom roomId name r).1.1 = Ok true ∧
  (removeUserFromRoom roomId name r).2 =
    [SREM (ROOM_PARTICIPANTS_KEY roomId) (to_string name)].
Proof.
  intros Hc Hu. unfold removeUserFromRoom, call_key, resolve.
  rewrite ROOM_PARTICIPANTS_KEY_bound.
  unfold getRedisClient, sRem, send. unfold_m. rewrite Hc. cbn. rewrite Hu. by cbn.
Qed.

(** C10: [clearRoomUsers] returns [false] for every room and every state of
    the store, leaves the store as it was and sends it no command: the name
    [ROOM_USERS_KEY] is not bound in the module, so evaluating the argument
    of [client.del] throws and the [catch] returns [false]. *)
Theorem clearRoomUsers_always_false (roomId : JsVal) (r : Redis) :
  clearRoomUsers roomId r = (Ok false, r, []) ∧
  smembers (ROOM_PARTICIPANTS_KEY roomId) (clearRoomUsers roomId r).1.2
    = smembers (ROOM_PARTICIPANTS_KEY roomId) r.
Proof.
  assert (clearRoomUsers roomId r = (Ok false, r, [])) as ->; [|done].
  unfold clearRoomUsers, call_key, resolve. rewrite ROOM_USERS_KEY_unbound.
  unfold getRedisClient. unfold_m.
  destruct (client_ready r); reflexivity.
Qed.

End RegistryFacts.

(** ** The room handlers *)

Module RoomEventsFacts.
Import RoomEvents.

Lemma keeps_emit {X} (f : World → X) t ev p : keeps f (emit t ev p).
Proof. apply keeps_tell. Qed.

Lemma keeps_timers_await {A} (g : Directory → res A * Directory) :
  keeps timers (await g).
Proof. intros w. unfold await. by destruct (g (directory w)). Qed.

Lemma timers_socket_join room w : timers (socket_join room w) = timers w.
Proof. unfold socket_join. by case_bool_decide. Qed.

Lemma timers_socket_leave room w : timers (socket_leave room w) = timers w.
Proof. unfold socket_leave. by destruct (adapter w !! room). Qed.

Lemma directory_socket_leave room w : directory (socket_leave room w) = directory w.
Proof. unfold socket_leave. by destruct (adapter w !! room). Qed.

Lemma socket_socket_join room w : socket (socket_join room w) = socket w.
Proof. unfold socket_join. by case_bool_decide. Qed.

Lemma socket_socket_leave room w : socket (socket_leave room w) = socket w.
Proof. unfold socket_leave. by destruct (adapter w !! room). Qed.

Ltac keeps_step :=
  first
    [ apply keeps_try_catch | apply keeps_bind | apply keeps_ret | apply keeps_throw
    | apply keeps_emit | apply keeps_tell | apply keeps_get | apply keeps_ask
    | apply keeps_timers_await
    | apply keeps_modify; intros ?;
      first [ apply timers_socket_join | apply timers_socket_leave | reflexivity
            | by repeat case_match ]
    | progress intros
    | match goal with
      | |- keeps _ (if ?b then _ else _) => destruct b
      | |- keeps _ (match ?x with _ => _ end) => destruct x
      end ].

(** No room handler touches the grace timers, whatever the request and
    whatever the collaborators do. *)
Lemma joinRoom_keeps_timers svc data : keeps timers (joinRoom svc data).
Proof. unfold joinRoom, destructure, broadcastUserEntered, query. repeat keeps_step. Qed.

Lemma rejoinRoom_keeps_timers svc data : keeps timers (rejoinRoom svc data).
Proof. unfold rejoinRoom, destructure, broadcastUserEntered, query. repeat keeps_step. Qed.

Lemma leaveRoom_keeps_timers svc data : keeps timers (leaveRoom svc data).
Proof. unfold leaveRoom, destructure, query. repeat keeps_step. Qed.

Lemma count_event_none ev (out : list Emit) :
  Forall (λ e, event e ≠ ev) out → count_event ev out = 0%nat.
Proof.
  unfold count_event. induction 1 as [|e out He _ IH]; [done|].
  rewrite filter_cons. by destruct (decide (event e = ev)).
Qed.

Lemma writes_emit (W : Emit → Prop) t ev p : W (mkEmit t ev p) → writes W (emit t ev p).
Proof. apply writes_tell. Qed.

Lemma writes_await (W : Emit → Prop) {A} (g : Directory → res A * Directory) :
  writes W (await g).
Proof. intros w. unfold await. destruct (g (directory w)). constructor. Qed.

Ltac writes_step :=
  first
    [ apply writes_try_catch | apply writes_bind | apply writes_ret | apply writes_throw
    | apply writes_emit; by cbn | apply writes_get | apply writes_ask
    | apply writes_await | apply writes_modify
    | progress intros
    | match goal with
      | |- writes _ (if ?b then _ else _) => destruct b
      | |- writes _ (match ?x with _ => _ end) => destruct x
      end ].

(** A rejoin whose [silent] is left out or truthy announces nobody. *)
Lemma rejoinRoom_silent svc data w :
  (∀ d, data = Some d → truthy (with_default (JBool true) (silent d)) = true) →
  count_event "room:userEntered" (rejoinRoom svc data w).2 = 0%nat.
Proof.
  intros Hs. apply count_event_none.
  revert w. change (writes (λ e, event e ≠ "room:userEntered") (rejoinRoom svc data)).
  unfold rejoinRoom, destructure, broadcastUserEntered, query.
  apply writes_try_catch; [|repeat writes_step].
  destruct data as [d|]; [|apply writes_throw_bind].
  apply writes_ret_bind. rewrite (Hs d eq_refl). cbn. repeat writes_step.
Qed.

(** A request with a falsy identifier is answered with the validation
    error and nothing else happens. *)
Lemma invalid_rejected svc d w :
  invalid d = true →
  joinRoom svc (Some d) w = (Ok tt, w, [mkEmit ToSocket "error" (PError required)]) ∧
  rejoinRoom svc (Some d) w = (Ok tt, w, [mkEmit ToSocket "error" (PError required)]) ∧
  leaveRoom svc (Some d) w = (Ok tt, w, [mkEmit ToSocket "error" (PError required)]).
Proof.
  intros Hd. unfold joinRoom, rejoinRoom, leaveRoom, destructure, emit.
  unfold_m. by rewrite Hd.
Qed.

(** A request without a payload object fails in the destructuring and is
    answered from the [catch]; nothing else happens. *)
Lemma absent_payload_rejected svc w :
  joinRoom svc None w
    = (Ok tt, w, [mkEmit ToSocket "error" (PError "Failed to join room")]) ∧
  rejoinRoom svc None w
    = (Ok tt, w, [mkEmit ToSocket "error" (PError "Failed to rejoin room")]) ∧
  leaveRoom svc None w
    = (Ok tt, w, [mkEmit ToSocket "error" (PError "Failed to leave room")]).
Proof. done. Qed.

Lemma missing_invalid d :
  roomId d = JUndefined ∨ userId d = JUndefined ∨ username d = JUndefined →
  invalid d = true.
Proof.
  unfold invalid. intros [-> | [-> | ->]]; cbn;
    rewrite ?orb_true_r; reflexivity.
Qed.

Ltac answer Hc Hp Hl :=
  match goal with
  | |- context [presence_getRoomUserCount ?svc ?r ?a ?d] =>
      let c := fresh "count" in destruct (Hc r a d) as [c ->]
  | |- context [getRoomParticipants ?svc ?r ?d] =>
      let c := fresh "participants" in destruct (Hp r d) as [c ->]
  | |- context [getUserLevel ?svc ?r ?d] =>
      let c := fresh "level" in destruct (Hl r d) as [c ->]
  end.

(** What an admitted first join emits, and that it records the room. *)
Lemma joinRoom_first svc (w : World) (d : Data) result d1 :
  invalid d = false →
  has_joined (roomId d) (socket w) = false →
  roomService_joinRoom svc (roomId d) (userId d) (username d) (directory w)
    = (Ok result, d1) →
  success result = true →
  answering svc →
  ∃ count participants level,
    (joinRoom svc (Some d) w).2 =
      [ mkEmit ToSocket "joinRoom:success"
          (PJoined (roomId d) (room result) count participants (Some level));
        mkEmit (ToRoomOthers (roomKey (roomId d))) "room:userEntered"
          (PPresence (username d) (userId d)
             (to_string (username d) +:+ " has entered the chat") count);
        mkEmit (ToRoom (roomKey (roomId d))) "room:userListUpdate"
          (PListUpdate count participants) ] ∧
    has_joined (roomId d) (socket (joinRoom svc (Some d) w).1.2) = true.
Proof.
  intros Hd Hj Hg Hs (Hc & Hp & Hl).
  unfold joinRoom, destructure, emit, broadcastUserEntered, query, await, has_joined in *.
  unfold_m. rewrite Hd.
  destruct (joinedRooms (socket w)) as [js|] eqn:Hjs; cbn in *;
    unfold directory in *; cbn; rewrite Hg; cbn; rewrite Hs; cbn.
  all: repeat (answer Hc Hp Hl; cbn).
  all: rewrite !socket_socket_join; cbn; rewrite ?Hjs; cbn; rewrite ?Hj; cbn.
  all: eexists _, _, _; split; [reflexivity|].
  all: apply bool_decide_eq_true; set_solver.
Qed.

(** What a leave emits when the store calls go through. *)
Lemma leaveRoom_emits svc (w : World) (d : Data) d1 :
  invalid d = false →
  roomService_leaveRoom svc (roomId d) (userId d) (username d) (directory w)
    = (Ok tt, d1) →
  answering svc →
  ∃ count participants,
    (leaveRoom svc (Some d) w).2 =
      [ mkEmit ToSocket "leaveRoom:success" (PLeft (roomId d));
        mkEmit (ToRoomOthers (roomKey (roomId d))) "room:userLeft"
          (PPresence (username d) (userId d)
             (to_string (username d) +:+ " has left the chat") count);
        mkEmit (ToRoom (roomKey (roomId d))) "room:userListUpdate"
          (PListUpdate count participants) ] ∧
    has_joined (roomId d) (socket (leaveRoom svc (Some d) w).1.2) = false ∧
    currentRoomId (socket (leaveRoom svc (Some d) w).1.2) = JNull.
Proof.
  intros Hd Hg (Hc & Hp & _).
  unfold leaveRoom, destructure, emit, query, await, has_joined in *.
  unfold_m. rewrite Hd. rewrite directory_socket_leave, Hg. cbn.
  repeat (answer Hc Hp Hp; cbn).
  eexists _, _. split; [reflexivity|]. split; [|reflexivity].
  apply bool_decide_eq_false.
  destruct (joinedRooms (socket (socket_leave _ w))); cbn;
    [|apply not_elem_of_empty].
  intros [_ Hn]%elem_of_difference. apply Hn. by apply elem_of_singleton.
Qed.

Lemma open_services_answering : answering open_services.
Proof. repeat split; intros; eexists; reflexivity. Qed.

(** C9: a join, rejoin or leave request in which [roomId], [userId] or
    [username] is missing is answered with the validation error, sent to
    the requesting client alone, and the whole process state - directory,
    registry, the session's first-join set and [currentRoomId], the grace
    timers - is what it was. *)
Theorem missing_identifier_rejected svc (d : Data) (w : World) :
  roomId d = JUndefined ∨ userId d = JUndefined ∨ username d = JUndefined →
  ∀ handler, handler ∈ [joinRoom svc; rejoinRoom svc; leaveRoom svc] →
    handler (Some d) w = (Ok tt, w, [mkEmit ToSocket "error" (PError required)]).
Proof.
  intros Hm%missing_invalid handler Hh.
  destruct (invalid_rejected svc d w Hm) as (Hj & Hr & Hl).
  repeat (apply elem_of_cons in Hh as [-> | Hh]; [done|]).
  by apply elem_of_nil in Hh.
Qed.

Lemma missing_identifier_rejected_witness :
  leaveRoom open_services
    (Some (mkData JUndefined (JStr "u1") (JStr "alice") JUndefined)) joined_world
  = (Ok tt, joined_world, [mkEmit ToSocket "error" (PError required)]).
Proof.
  apply (missing_identifier_rejected open_services
           (mkData JUndefined (JStr "u1") (JStr "alice") JUndefined) joined_world).
  - left. reflexivity.
  - apply elem_of_cons. right. apply elem_of_cons. right.
    apply elem_of_cons. left. reflexivity.
Defined.



(** C1, as amended: an explicit leave with truthy [roomId], [userId] and
    [username] whose store calls go through broadcasts exactly one "left"
    notice, to the other members of the room, clears the session's
    first-join mark and [currentRoomId], and leaves the grace timers as
    they were: a grace timer pending for that user stays in the map and
    stays armed. *)
Theorem leaveRoom_left_once_timers_untouched svc (w : World) (d : Data) d1 :
  invalid d = false →
  roomService_leaveRoom svc (roomId d) (userId d) (username d) (directory w)
    = (Ok tt, d1) →
  answering svc →
  count_event "room:userLeft" (leaveRoom svc (Some d) w).2 = 1%nat ∧
  (∀ e, e ∈ (leaveRoom svc (Some d) w).2 → event e = "room:userLeft" →
        target e = ToRoomOthers (roomKey (roomId d))) ∧
  has_joined (roomId d) (socket (leaveRoom svc (Some d) w).1.2) = false ∧
  currentRoomId (socket (leaveRoom svc (Some d) w).1.2) = JNull ∧
  timers (leaveRoom svc (Some d) w).1.2 = timers w.
Proof.
  intros Hd Hg Ha.
  destruct (leaveRoom_emits svc w d d1 Hd Hg Ha)
    as (count & participants & Hout & Hjoined & Hcur).
  rewrite Hout. split; [reflexivity|]. split; [|split; [done|split; [done|]]].
  - intros e He Hev. repeat (apply elem_of_cons in He as [-> | He]; try done).
    by apply elem_of_nil in He.
  - apply leaveRoom_keeps_timers.
Qed.

Lemma leaveRoom_left_once_timers_untouched_witness :
  count_event "room:userLeft" (leaveRoom open_services (Some alice) pending_world).2
    = 1%nat ∧
  timers (leaveRoom open_services (Some alice) pending_world).1.2
    = timers pending_world.
Proof.
  destruct (leaveRoom_left_once_timers_untouched open_services pending_world alice
              (removeMember (JStr "lobby") (JStr "alice") (directory pending_world)))
    as (H1 & _ & _ & _ & H5).
  - reflexivity.
  - reflexivity.
  - apply open_services_answering.
  - split; [exact H1 | exact H5].
Defined.

(** C1, as stated, fails: in [pending_world] a grace timer is pending for
    user [u1]; her leave request is valid and is served, and afterwards the
    entry for [u1] is still in the map. *)
Lemma leaveRoom_keeps_pending_timer :
  invalid alice = false ∧
  is_Some (GraceTimers.disconnectGraceTimers (grace pending_world) !! JStr "u1") ∧
  (leaveRoom open_services (Some alice) pending_world).1.1 = Ok tt ∧
  ¬ (count_event "room:userLeft"
       (leaveRoom open_services (Some alice) pending_world).2 = 1%nat ∧
     GraceTimers.disconnectGraceTimers
       (grace (leaveRoom open_services (Some alice) pending_world).1.2)
       !! userId alice = None).
Proof.
  split; [reflexivity|]. split; [by vm_compute; eexists|]. split; [by vm_compute|].
  intros [_ Hnone]. vm_compute in Hnone. discriminate.
Qed.

(** *** More on the room handlers *)

Lemma try_catch_emit_ok (m : H unit) t ev p w :
  (try_catch m (λ _, emit t ev p) w).1.1 = Ok tt.
Proof.
  unfold try_catch. destruct (m w) as [[[[]|e] w1] o1]; cbn; done.
Qed.

(** X21: no room handler lets an exception out: whatever the request and
    whatever the collaborators do - deny, answer or throw - the handler
    completes. *)
Theorem room_handlers_never_throw svc data w :
  (joinRoom svc data w).1.1 = Ok tt ∧
  (rejoinRoom svc data w).1.1 = Ok tt ∧
  (leaveRoom svc data w).1.1 = Ok tt.
Proof. repeat split; apply try_catch_emit_ok. Qed.

Ltac local_step :=
  first
    [ apply writes_try_catch | apply writes_bind | apply writes_ret | apply writes_throw
    | apply writes_emit; cbn; tauto | apply writes_get | apply writes_ask
    | apply writes_await | apply writes_modify
    | progress intros
    | match goal with
      | |- writes _ (if ?b then _ else _) => destruct b
      | |- writes _ (match ?x with _ => _ end) => destruct x
      end ].

(** X22: whatever a handler emits goes to the requesting client or to the
    room named in the request: no join, rejoin or leave ever reaches another
    room. *)
Theorem broadcasts_stay_in_the_room svc data w :
  let local (e : Emit) :=
    target e = ToSocket ∨
    ∃ d, data = Some d ∧
         (target e = ToRoomOthers (roomKey (roomId d)) ∨
          target e = ToRoom (roomKey (roomId d))) in
  Forall local (joinRoom svc data w).2 ∧
  Forall local (rejoinRoom svc data w).2 ∧
  Forall local (leaveRoom svc data w).2.
Proof.
  cbn zeta.
  set (local := λ e : Emit, target e = ToSocket ∨
         ∃ d, data = Some d ∧
              (target e = ToRoomOthers (roomKey (roomId d)) ∨
               target e = ToRoom (roomKey (roomId d)))).
  assert (∀ m : H unit, writes local m → Forall local (m w).2) as Hw by (intros m Hm; apply Hm).
  unfold joinRoom, rejoinRoom, leaveRoom, destructure, broadcastUserEntered, query.
  destruct data as [d|].
  - assert (∀ t ev p, (t = ToSocket ∨ t = ToRoomOthers (roomKey (roomId d))
                       ∨ t = ToRoom (roomKey (roomId d))) →
                      writes local (emit t ev p)) as He.
    { intros t ev p Ht. apply writes_emit. unfold local. cbn.
      destruct Ht as [->|Ht]; [by left|]. right. exists d. by split. }
    repeat split; apply Hw; apply writes_try_catch;
      try (intros; apply He; tauto);
      apply writes_ret_bind;
      repeat first [ apply He; tauto | local_step ].
  - assert (∀ ev p, writes local (emit ToSocket ev p)) as He.
    { intros ev p. apply writes_emit. by left. }
    repeat split; apply Hw; apply writes_try_catch;
      first [ apply writes_throw_bind | intros; apply He ].
Qed.

Lemma joinRoom_again_no_entered svc d w :
  has_joined (roomId d) (socket w) = true →
  count_event "room:userEntered" (joinRoom svc (Some d) w).2 = 0%nat.
Proof.
  unfold has_joined. intros Hj. apply count_event_none.
  unfold joinRoom, destructure, emit, broadcastUserEntered, query, await.
  unfold_m. destruct (invalid d); [by repeat constructor|].
  destruct (joinedRooms (socket w)) as [js|] eqn:Hjs; cbn in *;
    [|by apply bool_decide_eq_true, not_elem_of_empty in Hj].
  rewrite Hjs. cbn. rewrite Hj. cbn.
  repeat (case_match; simplify_eq/=; try by repeat constructor).
Qed.

(** X23: a join the access check refuses tells the requester so and joins
    nothing: the registry, the session's current room and its first-join
    marks, and the grace timers are as they were, and the directory is as
    the check left it. *)
Theorem denied_join_joins_nothing svc (w : World) (d : Data) result d1 :
  invalid d = false →
  roomService_joinRoom svc (roomId d) (userId d) (username d) (directory w)
    = (Ok result, d1) →
  success result = false →
  (joinRoom svc (Some d) w).2
    = [mkEmit ToSocket "joinRoom:error" (PRejected (error result))] ∧
  adapter (joinRoom svc (Some d) w).1.2 = adapter w ∧
  currentRoomId (socket (joinRoom svc (Some d) w).1.2) = currentRoomId (socket w) ∧
  has_joined (roomId d) (socket (joinRoom svc (Some d) w).1.2)
    = has_joined (roomId d) (socket w) ∧
  directory (joinRoom svc (Some d) w).1.2 = d1 ∧
  timers (joinRoom svc (Some d) w).1.2 = timers w.
Proof.
  intros Hd Hg Hs.
  unfold joinRoom, destructure, emit, broadcastUserEntered, query, await, has_joined.
  unfold_m. rewrite Hd.
  destruct (joinedRooms (socket w)) as [js|] eqn:Hjs; cbn;
    unfold directory in *; cbn; rewrite Hg; cbn; rewrite Hs; cbn;
    rewrite ?Hjs; repeat split; done.
Qed.

Lemma denied_join_joins_nothing_witness :
  (joinRoom closed_services (Some alice) fresh_world).2
    = [mkEmit ToSocket "joinRoom:error" (PRejected (JStr "Room is full"))] ∧
  adapter (joinRoom closed_services (Some alice) fresh_world).1.2 = adapter fresh_world.
Proof.
  destruct (denied_join_joins_nothing closed_services fresh_world alice
              (mkJoinResult false JUndefined (JStr "Room is full"))
              (directory fresh_world))
    as (H1 & H2 & _); [reflexivity | reflexivity | reflexivity |].
  split; [exact H1 | exact H2].
Defined.

(** X24: the room is marked as joined before the count is read.  When the
    access check admits a first join and the user count query then throws,
    the requester gets "Failed to join room", nobody is told that the user
    entered, and the session nevertheless holds the room as joined and
    current - so a retry of the join, whatever the collaborators then do,
    announces nobody either. *)
Theorem failed_count_loses_announcement svc (w : World) (d : Data) result d1 e :
  invalid d = false →
  has_joined (roomId d) (socket w) = false →
  roomService_joinRoom svc (roomId d) (userId d) (username d) (directory w)
    = (Ok result, d1) →
  success result = true →
  (∀ a dd, presence_getRoomUserCount svc (roomId d) a dd = Throw e) →
  (joinRoom svc (Some d) w).2
    = [mkEmit ToSocket "error" (PError "Failed to join room")] ∧
  has_joined (roomId d) (socket (joinRoom svc (Some d) w).1.2) = true ∧
  currentRoomId (socket (joinRoom svc (Some d) w).1.2) = roomId d ∧
  ∀ svc', count_event "room:userEntered"
            (joinRoom svc' (Some d) (joinRoom svc (Some d) w).1.2).2 = 0%nat.
Proof.
  intros Hd Hj Hg Hs Hc.
  assert ((joinRoom svc (Some d) w).2
            = [mkEmit ToSocket "error" (PError "Failed to join room")] ∧
          has_joined (roomId d) (socket (joinRoom svc (Some d) w).1.2) = true ∧
          currentRoomId (socket (joinRoom svc (Some d) w).1.2) = roomId d)
    as (Hout & Hjoined & Hcur).
  { unfold joinRoom, destructure, emit, broadcastUserEntered, query, await, has_joined
      in *.
    unfold_m. rewrite Hd.
    destruct (joinedRooms (socket w)) as [js|] eqn:Hjs; cbn in *;
      unfold directory in *; cbn; rewrite Hg; cbn; rewrite Hs; cbn;
      rewrite Hc; cbn; (split; [done|]); (split; [|done]);
      apply bool_decide_eq_true, elem_of_union; left; by apply elem_of_singleton. }
  split; [done|]. split; [done|]. split; [done|].
  intros svc'. by apply joinRoom_again_no_entered.
Qed.

Lemma failed_count_loses_announcement_witness :
  (joinRoom flaky_services (Some alice) fresh_world).2
    = [mkEmit ToSocket "error" (PError "Failed to join room")] ∧
  count_event "room:userEntered"
    (joinRoom open_services (Some alice)
       (joinRoom flaky_services (Some alice) fresh_world).1.2).2 = 0%nat.
Proof.
  destruct (failed_count_loses_announcement flaky_services fresh_world alice
              (mkJoinResult true (JStr "lobby") JUndefined)
              (addMember (JStr "lobby") (JStr "alice") (directory fresh_world))
              (Rejected "count"))
    as (H1 & _ & _ & H4); [reflexivity | reflexivity | reflexivity | reflexivity | |].
  - intros a dd. reflexivity.
  - split; [exact H1 | apply H4].
Defined.

(** X25: a second admitted join of a room the session already holds is
    silent: the requester gets the success and the room gets the list
    update, and nobody is told that the user entered. *)
Theorem second_join_is_silent svc (w : World) (d : Data) result d1 :
  invalid d = false →
  has_joined (roomId d) (socket w) = true →
  roomService_joinRoom svc (roomId d) (userId d) (username d) (directory w)
    = (Ok result, d1) →
  success result = true →
  answering svc →
  ∃ count participants level,
    (joinRoom svc (Some d) w).2 =
      [ mkEmit ToSocket "joinRoom:success"
          (PJoined (roomId d) (room result) count participants (Some level));
        mkEmit (ToRoom (roomKey (roomId d))) "room:userListUpdate"
          (PListUpdate count participants) ].
Proof.
  intros Hd Hj Hg Hs (Hc & Hp & Hl).
  unfold joinRoom, destructure, emit, broadcastUserEntered, query, await, has_joined in *.
  unfold_m. rewrite Hd.
  destruct (joinedRooms (socket w)) as [js|] eqn:Hjs; cbn in *;
    [|by apply bool_decide_eq_true, not_elem_of_empty in Hj].
  unfold directory in *; cbn; rewrite Hg; cbn; rewrite Hs; cbn.
  repeat (answer Hc Hp Hl; cbn).
  rewrite ?Hjs; cbn; rewrite ?Hj; cbn.
  by eexists _, _, _.
Qed.

Lemma second_join_is_silent_witness :
  ∃ count participants level,
    (joinRoom open_services (Some alice) joined_world).2 =
      [ mkEmit ToSocket "joinRoom:success"
          (PJoined (JStr "lobby") (JStr "lobby") count participants (Some level));
        mkEmit (ToRoom "room:lobby") "room:userListUpdate"
          (PListUpdate count participants) ].
Proof.
  apply (second_join_is_silent open_services joined_world alice
           (mkJoinResult true (JStr "lobby") JUndefined)
           (addMember (JStr "lobby") (JStr "alice") (directory joined_world)));
    [reflexivity | reflexivity | reflexivity | reflexivity | apply open_services_answering].
Defined.

(** X26: leaving resets the first-join mark.  After a leave that went
    through - one "left" notice - an admitted join of the same room on the
    same session announces the user again, exactly once. *)
Theorem leave_then_join_announces_again svc (w : World) (d : Data) d1 result d2 :
  invalid d = false →
  roomService_leaveRoom svc (roomId d) (userId d) (username d) (directory w)
    = (Ok tt, d1) →
  answering svc →
  roomService_joinRoom svc (roomId d) (userId d) (username d)
    (directory (leaveRoom svc (Some d) w).1.2) = (Ok result, d2) →
  success result = true →
  count_event "room:userLeft" (leaveRoom svc (Some d) w).2 = 1%nat ∧
  count_event "room:userEntered"
    (joinRoom svc (Some d) (leaveRoom svc (Some d) w).1.2).2 = 1%nat.
Proof.
  intros Hd Hl Ha Hg Hs.
  destruct (leaveRoom_emits svc w d d1 Hd Hl Ha) as (c & ps & Hout & Hj & _).
  destruct (joinRoom_first svc _ d result d2 Hd Hj Hg Hs Ha) as (c' & ps' & lv & -> & _).
  by rewrite Hout.
Qed.

Lemma leave_then_join_announces_again_witness :
  count_event "room:userEntered"
    (joinRoom open_services (Some alice)
       (leaveRoom open_services (Some alice) joined_world).1.2).2 = 1%nat.
Proof.
  destruct (leave_then_join_announces_again open_services joined_world alice
              (removeMember (JStr "lobby") (JStr "alice") (directory joined_world))
              (mkJoinResult true (JStr "lobby") JUndefined)
              (addMember (JStr "lobby") (JStr "alice")
                 (directory (leaveRoom open_services (Some alice) joined_world).1.2)))
    as [_ H]; [reflexivity | reflexivity | apply open_services_answering
              | reflexivity | reflexivity |].
  exact H.
Defined.

Ltac marks_step :=
  first
    [ apply keeps_try_catch | apply keeps_bind | apply keeps_ret | apply keeps_throw
    | apply keeps_emit | apply keeps_tell | apply keeps_get | apply keeps_ask
    | apply keeps_modify; intros ?; cbn; rewrite ?socket_socket_join; reflexivity
    | progress intros
    | match goal with
      | |- keeps _ (await ?g) =>
          let w := fresh "w" in
          intros w; unfold await; by destruct (g (directory w))
      | |- keeps _ (if ?b then _ else _) => destruct b
      | |- keeps _ (match ?x with _ => _ end) => destruct x
      end ].

(** A rejoin never touches the session's first-join marks. *)
Lemma rejoinRoom_keeps_marks svc data :
  keeps (λ w, joinedRooms (socket w)) (rejoinRoom svc data).
Proof. unfold rejoinRoom, destructure, broadcastUserEntered, query. repeat marks_step. Qed.

(** X27: a rejoin whose [silent] is supplied and falsy announces the user,
    exactly once and to the others in the room, when the access check admits
    it; and no rejoin, silent or not, changes the session's first-join
    marks. *)
Theorem nonsilent_rejoin_announces_once svc (w : World) (d : Data) result d1 :
  invalid d = false →
  truthy (with_default (JBool true) (silent d)) = false →
  roomService_joinRoom svc (roomId d) (userId d) (username d) (directory w)
    = (Ok result, d1) →
  success result = true →
  answering svc →
  (∃ count participants,
     (rejoinRoom svc (Some d) w).2 =
       [ mkEmit ToSocket "rejoinRoom:success"
           (PJoined (roomId d) (room result) count participants None);
         mkEmit (ToRoomOthers (roomKey (roomId d))) "room:userEntered"
           (PPresence (username d) (userId d)
              (to_string (username d) +:+ " has entered the chat") count);
         mkEmit (ToRoom (roomKey (roomId d))) "room:userListUpdate"
           (PListUpdate count participants) ]) ∧
  joinedRooms (socket (rejoinRoom svc (Some d) w).1.2) = joinedRooms (socket w).
Proof.
  intros Hd Hsil Hg Hs (Hc & Hp & Hl). split; [|apply rejoinRoom_keeps_marks].
  unfold rejoinRoom, destructure, emit, broadcastUserEntered, query, await.
  unfold_m. rewrite Hd. unfold directory in *. cbn. rewrite Hg. cbn. rewrite Hs. cbn.
  repeat (answer Hc Hp Hl; cbn). rewrite Hsil. cbn. by eexists _, _.
Qed.

Lemma nonsilent_rejoin_announces_once_witness :
  count_event "room:userEntered"
    (rejoinRoom open_services
       (Some (mkData (JStr "lobby") (JStr "u1") (JStr "alice") (JBool false)))
       joined_world).2 = 1%nat.
Proof.
  destruct (nonsilent_rejoin_announces_once open_services joined_world
              (mkData (JStr "lobby") (JStr "u1") (JStr "alice") (JBool false))
              (mkJoinResult true (JStr "lobby") JUndefined)
              (addMember (JStr "lobby") (JStr "alice") (directory joined_world)))
    as [(c & ps & ->) _];
    [reflexivity | reflexivity | reflexivity | reflexivity
    | apply open_services_answering |].
  reflexivity.
Defined.

Lemma adapter_after_leave svc d w :
  invalid d = false →
  adapter (leaveRoom svc (Some d) w).1.2 = adapter (socket_leave (roomKey (roomId d)) w).
Proof.
  intros Hd. unfold leaveRoom, destructure, emit, query, await.
  unfold_m. rewrite Hd.
  repeat (case_match; simplify_eq/=); done.
Qed.

Ltac split_query :=
  match goal with
  | |- context [presence_getRoomUserCount ?svc ?r ?a ?d] =>
      destruct (presence_getRoomUserCount svc r a d)
  | |- context [getRoomParticipants ?svc ?r ?d] =>
      destruct (getRoomParticipants svc r d)
  | |- context [getUserLevel ?svc ?r ?d] =>
      destruct (getUserLevel svc r d)
  end.

Lemma adapter_socket_join_directory room d1 w :
  adapter (socket_join room (with_directory d1 w)) = adapter (socket_join room w).
Proof. unfold socket_join. cbn. by case_bool_decide. Qed.

Lemma adapter_after_join svc d w result d1 :
  invalid d = false →
  roomService_joinRoom svc (roomId d) (userId d) (username d) (directory w)
    = (Ok result, d1) →
  success result = true →
  adapter (joinRoom svc (Some d) w).1.2 = adapter (socket_join (roomKey (roomId d)) w).
Proof.
  intros Hd Hg Hs. unfold joinRoom, destructure, broadcastUserEntered, emit, query, await.
  unfold_m. rewrite Hd.
  destruct (joinedRooms (socket w)) as [js|] eqn:Hjs; cbn;
    unfold directory in *; cbn; rewrite Hg; cbn; rewrite Hs; cbn;
    repeat (split_query; cbn);
    try (destruct (bool_decide _); cbn);
    try apply adapter_socket_join_directory.
  all: unfold socket_join; cbn; by case_bool_decide.
Qed.

(** X28: the registry follows the requests.  After a valid leave, whatever
    the store then does, the session's socket is in the room's registry
    entry no more and every other socket of the entry is still there; after
    an admitted join it is there, appended once. *)
Theorem registry_follows_join_and_leave svc (w : World) (d : Data) :
  invalid d = false →
  let key := roomKey (roomId d) in
  let me := sid (socket w) in
  let before := default [] (adapter w !! key) in
  default [] (adapter (leaveRoom svc (Some d) w).1.2 !! key)
    = filter (λ s, s ≠ me) before ∧
  (∀ result d1,
     roomService_joinRoom svc (roomId d) (userId d) (username d) (directory w)
       = (Ok result, d1) →
     success result = true →
     default [] (adapter (joinRoom svc (Some d) w).1.2 !! key)
       = if bool_decide (me ∈ before) then before else before ++ [me]).
Proof.
  intros Hd. cbn zeta. split.
  - rewrite adapter_after_leave by done. unfold socket_leave.
    destruct (adapter w !! roomKey (roomId d)) as [sids|] eqn:Ha; cbn;
      [|by rewrite Ha].
    case_decide as He; [by rewrite lookup_delete_eq, He|by rewrite lookup_insert_eq].
  - intros result d1 Hg Hs. rewrite (adapter_after_join svc d w result d1) by done.
    unfold socket_join. case_bool_decide; cbn; [done|]. by rewrite lookup_insert_eq.
Qed.

Lemma registry_follows_join_and_leave_witness :
  default [] (adapter (joinRoom open_services (Some alice) fresh_world).1.2 !! "room:lobby")
    = ["s1"] ∧
  default [] (adapter (leaveRoom open_services (Some alice) joined_world).1.2 !! "room:lobby")
    = [].
Proof.
  destruct (registry_follows_join_and_leave open_services fresh_world alice) as [_ Hj];
    [reflexivity|].
  destruct (registry_follows_join_and_leave open_services joined_world alice) as [Hl _];
    [reflexivity|].
  split.
  - apply (Hj (mkJoinResult true (JStr "lobby") JUndefined)
              (addMember (JStr "lobby") (JStr "alice") (directory fresh_world)));
      reflexivity.
  - exact Hl.
Defined.

End RoomEventsFacts.

(** ** The socket handler *)

Module SystemEventsFacts.
Import SystemEventsHandler.

Lemma handler_keeps_emit {X} (f : State → X) t ev p : keeps f (emit t ev p).
Proof. apply keeps_tell. Qed.
Lemma keeps_timers_cmd {A} (c : RedisPresence.R A) : keeps timers (cmd c).
Proof. intros st. unfold cmd. by destruct (c (redis st)) as [[r rd] o]. Qed.
Lemma handler_keeps_timers_await {A} g : keeps timers (await (A:=A) g).
Proof. intros st. unfold await. by destruct (g (redis st)). Qed.
Lemma keeps_timers_query {A} g : keeps timers (query (A:=A) g).
Proof. by intros st. Qed.
Lemma keeps_for_each {A X} (f : State → X) (l : list A) (body : A → H unit) :
  (∀ a, keeps f (body a)) → keeps f (for_each l body).
Proof.
  intros Hb. induction l as [|a l IH]; [apply keeps_ret|].
  cbn. apply keeps_bind; [apply Hb|]. intros _. apply IH.
Qed.

Ltac handler_keeps_step :=
  first
    [ apply keeps_try_catch | apply keeps_bind | apply keeps_ret | apply keeps_throw
    | apply handler_keeps_emit | apply keeps_tell | apply keeps_get
    | apply keeps_timers_cmd | apply handler_keeps_timers_await | apply keeps_timers_query
    | apply keeps_for_each
    | apply keeps_modify; intros ?; reflexivity
    | progress intros
    | match goal with
      | |- keeps _ (if ?b then _ else _) => destruct b
      | |- keeps _ (match ?x with _ => _ end) => destruct x
      end ].

Lemma handleLogout_keeps_timers svc sid data : keeps timers (handleLogout svc sid data).
Proof. unfold handleLogout. repeat handler_keeps_step. Qed.

Lemma explicit_disconnect_keeps_timers svc sid :
  keeps timers (disconnect svc sid "server namespace disconnect").
Proof.
  unfold disconnect, handleDisconnect.
  replace (bool_decide ("server namespace disconnect" = "client namespace disconnect")
           || bool_decide ("server namespace disconnect" = "server namespace disconnect"))
    with true by (symmetry; apply orb_true_iff; right; by apply bool_decide_eq_true).
  repeat first [ apply handleLogout_keeps_timers | handler_keeps_step ].
Qed.

Lemma checkSession_keeps_timers svc sid name : keeps timers (checkSession svc sid name).
Proof.
  unfold checkSession.
  repeat first [ apply explicit_disconnect_keeps_timers | handler_keeps_step ].
Qed.

Lemma handler_writes_emit (W : Emit → Prop) t ev p : W (mkEmit t ev p) → writes W (emit t ev p).
Proof. apply writes_tell. Qed.
Lemma writes_cmd (W : Emit → Prop) {A} (c : RedisPresence.R A) : writes W (cmd c).
Proof. intros st. unfold cmd. destruct (c (redis st)) as [[r rd] o]. constructor. Qed.
Lemma handler_writes_await (W : Emit → Prop) {A} g : writes W (await (A:=A) g).
Proof. intros st. unfold await. destruct (g (redis st)). constructor. Qed.
Lemma writes_query (W : Emit → Prop) {A} g : writes W (query (A:=A) g).
Proof. intros st. constructor. Qed.
Lemma writes_for_each (W : Emit → Prop) {A} (l : list A) (body : A → H unit) :
  (∀ a, writes W (body a)) → writes W (for_each l body).
Proof.
  intros Hb. induction l as [|a l IH]; [apply writes_ret|].
  cbn. apply writes_bind; [apply Hb|]. intros _. apply IH.
Qed.

Ltac handler_writes_step :=
  first
    [ apply writes_try_catch | apply writes_bind | apply writes_ret | apply writes_throw
    | apply handler_writes_emit; by cbn | apply writes_get
    | apply writes_cmd | apply handler_writes_await | apply writes_query
    | apply writes_for_each | apply writes_modify
    | progress intros
    | match goal with
      | |- writes _ (if ?b then _ else _) => destruct b
      | |- writes _ (match ?x with _ => _ end) => destruct x
      end ].

Lemma handleLogout_not_entered svc sid data : writes not_entered (handleLogout svc sid data).
Proof. unfold handleLogout, not_entered. repeat handler_writes_step. Qed.

Lemma authenticate_not_entered svc sid data : writes not_entered (authenticate svc sid data).
Proof.
  unfold authenticate, checkSession, disconnect, handleDisconnect.
  repeat first [ apply handleLogout_not_entered | unfold not_entered; handler_writes_step ].
Qed.

(** On the timers, a valid [authenticate] does what [cancelDisconnectTimer]
    does, and nothing more. *)
Lemma authenticate_timers svc sid d st :
  truthy (d_userId d) = true → truthy (d_username d) = true →
  timers (authenticate svc sid (Some d) st).1.2
  = timers (cancelDisconnectTimer (d_userId d) st).2.
Proof.
  intros Hu Hn.
  enough (hoare (λ s, s = st) (authenticate svc sid (Some d))
                (λ s, timers s = timers (cancelDisconnectTimer (d_userId d) st).2))
    as Hh by (by apply Hh).
  unfold authenticate. apply hoare_try_catch_tell; [|intros; apply handler_keeps_emit].
  apply hoare_ret_bind. rewrite Hu, Hn. cbn.
  apply hoare_modify_bind
    with (R := λ s, timers s = timers (cancelDisconnectTimer (d_userId d) st).2).
  - intros s ->. unfold cancelDisconnectTimer.
    by destruct (disconnectGraceTimers st !! to_string (d_userId d)).
  - apply hoare_keeps with (f := timers); [|intros s s' -> Hs; exact Hs].
    repeat first [ apply checkSession_keeps_timers | handler_keeps_step ].
Qed.

(** X30: every transport disconnect of a named socket arms a fresh timer due
    30,000 ms later under the key of the socket's user and disarms the timer
    that key held before. *)
Lemma handleDisconnect_rearms svc sid reason st :
  truthy (username (socket_of sid st)) = true →
  reason ≠ "client namespace disconnect" →
  reason ≠ "server namespace disconnect" →
  let st' := (handleDisconnect svc sid reason st).1.2 in
  let key := to_string (userId (socket_of sid st)) in
  disconnectGraceTimers st' !! key = Some (next_handle (loop st)) ∧
  armed (loop st') !! next_handle (loop st)
    = Some (mkTask (now (loop st) + 30000)
                   (mkClosure sid key (userId (socket_of sid st))
                              (username (socket_of sid st)))) ∧
  (∀ h, disconnectGraceTimers st !! key = Some h → h ≠ next_handle (loop st) →
        armed (loop st') !! h = None).
Proof.
  intros Hn Hc Hs. unfold handleDisconnect. unfold_m. rewrite Hn. cbn.
  rewrite !bool_decide_eq_false_2 by done. cbn.
  destruct (disconnectGraceTimers st !! to_string (userId (socket_of sid st)))
    as [h0|] eqn:Hk; cbn; rewrite lookup_insert_eq; (split; [done|]).
  - rewrite lookup_insert_eq. split; [done|]. intros h [= <-] Hne.
    rewrite lookup_insert_ne by done. apply lookup_delete_eq.
  - rewrite lookup_insert_eq. split; [done|]. intros h [=].
Qed.

(** C6 (the code departs from the claim): the handler's own
    [DISCONNECT_GRACE_PERIOD] is 30000.  Alice's socket closes with
    "transport close"; the grace timer armed for her is due 30,000 ms after
    the disconnect, not the 1,800,000 ms of the grace-period module. *)
Theorem handler_disconnect_arms_30000 :
  let st := (disconnect plain_services "s1" "transport close" alone).1.2 in
  ∃ h t, disconnectGraceTimers st !! "7" = Some h ∧ armed (loop st) !! h = Some t ∧
         due t - now (loop st) = 30000 ∧
         due t - now (loop st) ≠ GraceTimers.DISCONNECT_GRACE_PERIOD.
Proof. cbn zeta. eexists _, _. vm_compute. repeat split; try reflexivity. discriminate. Qed.

(** C7 (the code departs from the claim): [handleDisconnect] clears the
    pending timer and arms a new one.  Alice is connected on two sockets;
    the first drops at 0 and arms timer 0, due at 30000; the second drops
    at 20000: timer 0 is cleared and timer 1, due at 50000, takes its place
    under the same key, so the user's expiry instant has moved. *)
Theorem handler_disconnect_resets_countdown :
  let st1 := (disconnect plain_services "s1" "transport close" two_devices).1.2 in
  let st2 := ((wait 20000;; disconnect plain_services "s2" "ping timeout") st1).1.2 in
  (∃ t, disconnectGraceTimers st1 !! "7" = Some 0%nat ∧
        armed (loop st1) !! 0%nat = Some t ∧ due t = 30000) ∧
  armed (loop st2) !! 0%nat = None ∧
  (∃ t, disconnectGraceTimers st2 !! "7" = Some 1%nat ∧
        armed (loop st2) !! 1%nat = Some t ∧ due t = 50000).
Proof. cbn zeta. split; [|split]; [eexists| |eexists]; vm_compute; repeat split; reflexivity. Qed.

(** C4 (the code departs from the claim): the handler's grace timer ends
    in [handleLogout], which tells every room of the user that she left.
    Alice's socket closes with "transport close", nobody cancels the timer,
    and 30 s later the timer fires: her map entry is gone, and room 42
    receives the chat line "alice [3] has left" and [room:user:left]. *)
Theorem handler_expiry_broadcasts_left :
  let run := (disconnect plain_services "s1" "transport close";;
              wait 30000;;
              fire plain_services 0%nat) alone in
  run.1.1 = Ok tt ∧
  disconnectGraceTimers run.1.2 = ∅ ∧
  filter (λ e, is_left_notice e) run.2 =
    [ mkEmit (ToRoom "room:42") "chat:message"
             (PChat "42" "Lobby" "alice [3] has left" "normal");
      mkEmit (ToRoom "room:42") "room:user:left"
             (PUserLeft "42" (JStr "alice") (JNum 7) ["bob"]) ].
Proof. cbn zeta. vm_compute. repeat split; reflexivity. Qed.

(** *** What the handler does to the socket objects *)

Lemma keeps_sockets_cmd {A} (c : RedisPresence.R A) : keeps sockets (cmd c).
Proof. intros st. unfold cmd. by destruct (c (redis st)) as [[r rd] o]. Qed.
Lemma keeps_sockets_await {A} g : keeps sockets (await (A:=A) g).
Proof. intros st. unfold await. by destruct (g (redis st)). Qed.
Lemma keeps_sockets_query {A} g : keeps sockets (query (A:=A) g).
Proof. by intros st. Qed.

Ltac sockets_step :=
  first
    [ apply keeps_try_catch | apply keeps_bind | apply keeps_ret | apply keeps_throw
    | apply handler_keeps_emit | apply keeps_get
    | apply keeps_sockets_cmd | apply keeps_sockets_await | apply keeps_sockets_query
    | apply keeps_for_each
    | progress intros
    | match goal with
      | |- keeps _ (if ?b then _ else _) => destruct b
      | |- keeps _ (match ?x with _ => _ end) => destruct x
      end ].

Lemma hoare_get_bind_eq {B} (s0 : State) (k : State → H B) (Q : State → Prop) :
  hoare (λ s, s = s0) (k s0) Q → hoare (λ s, s = s0) (get ≫= k) Q.
Proof.
  intros Hk s ->. specialize (Hk s0 eq_refl). unfold_m.
  by destruct (k s0 s0) as [[r s2] o2].
Qed.

Lemma handleLogout_skips svc sid data st :
  truthy (logout_ids sid data st).1 && truthy (logout_ids sid data st).2 = false
  ∨ logoutProcessed (socket_of sid st) = true →
  handleLogout svc sid data st = (Ok tt, st, []).
Proof.
  unfold logout_ids. cbn. intros Hc. unfold handleLogout, try_catch.
  unfold mbind, M_bind, bind, get at 1. cbn.
  destruct (truthy _ && truthy _) eqn:Hids; [|done].
  destruct Hc as [Hc|Hc]; [done|]. by rewrite Hc.
Qed.

Lemma handleLogout_marks svc sid data st :
  truthy (logout_ids sid data st).1 && truthy (logout_ids sid data st).2 = true →
  logoutProcessed (socket_of sid st) = false →
  sockets (handleLogout svc sid data st).1.2
  = <[sid := mkSocket (userId (socket_of sid st)) (username (socket_of sid st)) true]>
      (sockets st).
Proof.
  unfold logout_ids. cbn. intros Hids Hflag.
  enough (hoare (λ s, s = st) (handleLogout svc sid data)
            (λ s, sockets s
                  = <[sid := mkSocket (userId (socket_of sid st))
                                      (username (socket_of sid st)) true]> (sockets st)))
    as Hh by (by apply Hh).
  unfold handleLogout. apply hoare_try_catch_tell; [|intros; apply handler_keeps_emit].
  cbn zeta. apply hoare_get_bind_eq. rewrite Hids, Hflag.
  apply hoare_modify_bind
    with (R := λ s, sockets s
                    = <[sid := mkSocket (userId (socket_of sid st))
                                        (username (socket_of sid st)) true]> (sockets st)).
  - by intros s ->.
  - apply hoare_keeps with (f := sockets); [|intros s s' -> Hs; exact Hs].
    repeat sockets_step.
Qed.

(** X10: the logout is idempotent on a socket.  Whatever the request, the
    state and the answers of the helpers - also when one of them throws in
    the middle of the first logout - a second [handleLogout] with the same
    request on the same socket changes nothing and emits nothing: the first
    one set [socket._logoutProcessed] before its first await, or it had no
    user to log out and neither has the second. *)
Theorem handleLogout_idempotent svc sid data st :
  let once := handleLogout svc sid data st in
  handleLogout svc sid data once.1.2 = (Ok tt, once.1.2, []).
Proof.
  cbn zeta.
  destruct (truthy (logout_ids sid data st).1 && truthy (logout_ids sid data st).2)
    eqn:Hids.
  - destruct (logoutProcessed (socket_of sid st)) eqn:Hflag.
    + rewrite (handleLogout_skips svc sid data st) by by right.
      apply handleLogout_skips. by right.
    + apply handleLogout_skips. right.
      unfold socket_of at 1. rewrite (handleLogout_marks _ _ _ _ Hids Hflag).
      by rewrite lookup_insert_eq.
  - rewrite (handleLogout_skips svc sid data st) by by left.
    apply handleLogout_skips. by left.
Qed.


(** *** One timer per key, in every reachable state *)

Lemma one_timer_per_key_timers st st' :
  timers st' = timers st → one_timer_per_key st → one_timer_per_key st'.
Proof. unfold timers, one_timer_per_key. intros [= Hm Hl]. by rewrite Hm, Hl. Qed.

Lemma one_timer_remove k h st :
  one_timer_per_key st → disconnectGraceTimers st !! k = Some h →
  one_timer_per_key
    (with_timers (delete k (disconnectGraceTimers st)) (clearTimeout h (loop st)) st).
Proof.
  intros [Ha He] Hk. split; cbn.
  - intros h' t [Hne Ht]%lookup_delete_Some. destruct (Ha h' t Ht) as [Hlt Hrec].
    split; [done|]. rewrite lookup_delete_ne; [done|]. intros Heq. congruence.
  - intros k' h' [Hne Hk']%lookup_delete_Some. destruct (He k' h' Hk') as (t & Ht & Hkey).
    exists t. split; [|done]. rewrite lookup_delete_ne; [done|]. intros <-.
    destruct (He k h Hk) as (t' & Ht' & Hkey'). congruence.
Qed.

Lemma one_timer_cancel userId st :
  one_timer_per_key st → one_timer_per_key (cancelDisconnectTimer userId st).2.
Proof.
  intros Hst. unfold cancelDisconnectTimer.
  destruct (disconnectGraceTimers st !! to_string userId) eqn:Hk; [|done].
  by apply one_timer_remove.
Qed.

Lemma one_timer_rearm c delay st :
  one_timer_per_key st →
  let cleared := match disconnectGraceTimers st !! c_timerKey c with
                 | Some t => clearTimeout t (loop st)
                 | None => loop st
                 end in
  one_timer_per_key
    (with_timers (<[c_timerKey c := (setTimeout c delay cleared).1]>
                    (disconnectGraceTimers st))
                 (setTimeout c delay cleared).2 st).
Proof.
  intros [Ha He]. cbn zeta.
  assert (next_handle (match disconnectGraceTimers st !! c_timerKey c with
                       | Some t => clearTimeout t (loop st)
                       | None => loop st
                       end) = next_handle (loop st)) as Hnext
    by by destruct (disconnectGraceTimers st !! c_timerKey c).
  assert (∀ h t, armed (match disconnectGraceTimers st !! c_timerKey c with
                        | Some t => clearTimeout t (loop st)
                        | None => loop st
                        end) !! h = Some t →
                 armed (loop st) !! h = Some t ∧
                 disconnectGraceTimers st !! c_timerKey c ≠ Some h) as Hold.
  { intros h t. destruct (disconnectGraceTimers st !! c_timerKey c) as [t0|]; cbn.
    - intros [Hne Ht]%lookup_delete_Some. split; [done|]. congruence.
    - intros Ht. by split. }
  split; cbn; rewrite Hnext.
  - intros h t [[<- <-]|[Hne Ht]]%lookup_insert_Some.
    + cbn. split; [lia|]. apply lookup_insert_eq.
    + destruct (Hold h t Ht) as [Ht' Hnot]. destruct (Ha h t Ht') as [Hlt Hrec].
      split; [lia|]. rewrite lookup_insert_ne; [done|]. intros Heq.
      apply Hnot. by rewrite Heq.
  - intros k h [[<- <-]|[Hne Hk]]%lookup_insert_Some.
    + eexists. split; [apply lookup_insert_eq|done].
    + destruct (He k h Hk) as (t & Ht & Hkey). destruct (Ha h t Ht) as [Hlt _].
      exists t. split; [|done]. rewrite lookup_insert_ne by lia.
      destruct (disconnectGraceTimers st !! c_timerKey c) as [t0|] eqn:Hc; cbn; [|done].
      rewrite lookup_delete_ne; [done|]. intros <-.
      destruct (He _ _ Hc) as (t' & Ht' & Hkey'). congruence.
Qed.

Lemma hoare_bind_inv {A B} (I : State → Prop) (m : H A) (k : A → H B) :
  hoare I m I → (∀ a, hoare I (k a) I) → hoare I (m ≫= k) I.
Proof.
  intros Hm Hk s Hs. specialize (Hm s Hs). unfold_m.
  destruct (m s) as [[[a|e] s1] o1]; cbn in *; [|done].
  specialize (Hk a s1 Hm). by destruct (k a s1) as [[r s2] o2].
Qed.

Lemma hoare_try_catch_inv {A} (I : State → Prop) (m : H A) (h : Exn → H A) :
  hoare I m I → (∀ e, hoare I (h e) I) → hoare I (try_catch m h) I.
Proof.
  intros Hm Hh s Hs. specialize (Hm s Hs). unfold try_catch.
  destruct (m s) as [[[a|e] s1] o1]; cbn in *; [done|].
  specialize (Hh e s1 Hm). by destruct (h e s1) as [[r s2] o2].
Qed.

Lemma one_timer_keeps {A} (m : H A) :
  keeps timers m → hoare one_timer_per_key m one_timer_per_key.
Proof. intros Hm s Hs. by apply (one_timer_per_key_timers s), Hs. Qed.

Lemma one_timer_authenticate svc sid data :
  hoare one_timer_per_key (authenticate svc sid data) one_timer_per_key.
Proof.
  unfold authenticate. apply hoare_try_catch_inv;
    [|intros; apply one_timer_keeps, handler_keeps_emit].
  apply hoare_bind_inv.
  { destruct data; apply one_timer_keeps; [apply keeps_ret|apply keeps_throw]. }
  intros d. destruct (negb (truthy (d_userId d)) || negb (truthy (d_username d)));
    [apply one_timer_keeps, handler_keeps_emit|].
  apply hoare_bind_inv.
  - intros s Hs. cbn. pose proof (one_timer_cancel (d_userId d) s Hs) as Hc.
    unfold cancelDisconnectTimer in Hc.
    by destruct (disconnectGraceTimers s !! to_string (d_userId d)).
  - intros _. apply one_timer_keeps.
    repeat first [ apply checkSession_keeps_timers | handler_keeps_step ].
Qed.

Lemma one_timer_disconnect svc sid reason :
  hoare one_timer_per_key (disconnect svc sid reason) one_timer_per_key.
Proof.
  unfold disconnect. apply hoare_bind_inv.
  { apply one_timer_keeps, keeps_modify. by intros s. }
  intros _. unfold handleDisconnect. apply hoare_try_catch_inv;
    [|intros; apply one_timer_keeps, keeps_ret].
  apply hoare_bind_inv; [apply one_timer_keeps, keeps_get|]. intros st0.
  destruct (negb (truthy (username (socket_of sid st0))));
    [apply one_timer_keeps, keeps_ret|].
  destruct (bool_decide (reason = "client namespace disconnect")
            || bool_decide (reason = "server namespace disconnect"));
    [apply one_timer_keeps, handleLogout_keeps_timers|].
  intros s Hs.
  pose proof (one_timer_rearm
                (mkClosure sid (to_string (userId (socket_of sid st0)))
                           (userId (socket_of sid st0)) (username (socket_of sid st0)))
                DISCONNECT_GRACE_PERIOD s Hs) as Hr.
  cbn in Hr. unfold_m.
  by destruct (disconnectGraceTimers s !! to_string (userId (socket_of sid st0))).
Qed.

Lemma modify_then_keeps {X B} (f : State → X) (g : State → State) (k : unit → H B) s :
  keeps f (k tt) → f ((modify g ≫= k) s).1.2 = f (g s).
Proof.
  intros Hk. specialize (Hk (g s)). unfold_m.
  by destruct (k tt (g s)) as [[r s2] o2].
Qed.

Lemma one_timer_fire svc h :
  hoare one_timer_per_key (fire svc h) one_timer_per_key.
Proof.
  intros s Hs. unfold fire, take_due.
  destruct (armed (loop s) !! h) as [t|] eqn:Ht; [|done].
  destruct (due t <=? now (loop s)); [|done].
  destruct Hs as [Ha He]. destruct (Ha h t Ht) as [_ Hrec].
  pose proof (one_timer_remove _ _ s (conj Ha He) Hrec) as Hrm.
  unfold graceTimer. revert Hrm. apply one_timer_per_key_timers.
  match goal with
  | |- timers ((modify ?g ≫= ?k) ?s0).1.2 = _ =>
      rewrite (modify_then_keeps timers g k s0)
        by (repeat first [ apply handleLogout_keeps_timers | handler_keeps_step ])
  end.
  reflexivity.
Qed.

Lemma one_timer_step svc op :
  hoare one_timer_per_key (step svc op) one_timer_per_key.
Proof.
  destruct op; cbn.
  - apply one_timer_keeps, keeps_modify. by intros s.
  - apply one_timer_authenticate.
  - apply one_timer_keeps, checkSession_keeps_timers.
  - apply one_timer_keeps, handleLogout_keeps_timers.
  - apply one_timer_disconnect.
  - intros s Hs. by apply one_timer_cancel.
  - apply one_timer_fire.
  - intros s Hs. exact Hs.
Qed.

(** X29: the socket handler keeps one timer per user through every course
    of events.  From a start without timers, after any sequence of
    connects, [authenticate], [session:check] and [logout] requests,
    disconnects for any reason, calls of [cancelDisconnectTimer], timer
    expiries and waits, with helpers that answer or throw as they like:
    every armed grace timer is the one the map records under its key, every
    entry of the map records an armed timer of its key, and so no key ever
    has two armed timers. *)
Theorem handler_one_timer_per_key svc ops st :
  disconnectGraceTimers st = ∅ → armed (loop st) = ∅ →
  let st' := run svc ops st in
  one_timer_per_key st' ∧
  ∀ h1 h2 t1 t2,
    armed (loop st') !! h1 = Some t1 → armed (loop st') !! h2 = Some t2 →
    c_timerKey (closure t1) = c_timerKey (closure t2) → h1 = h2.
Proof.
  intros Hm Ha. cbn zeta.
  assert (one_timer_per_key (run svc ops st)) as Hinv.
  { assert (one_timer_per_key st) as Hst.
    { split; intros *; [rewrite Ha|rewrite Hm]; by rewrite lookup_empty. }
    clear Hm Ha. revert st Hst. unfold run.
    induction ops as [|op ops IH]; intros st Hst; cbn; [done|].
    apply IH. by apply one_timer_step. }
  split; [done|]. intros h1 h2 t1 t2 H1 H2 Hkey.
  destruct Hinv as [Harmed _].
  destruct (Harmed _ _ H1) as [_ Hr1]. destruct (Harmed _ _ H2) as [_ Hr2].
  congruence.
Qed.

Lemma handler_one_timer_per_key_witness :
  let ops := [ Connect "s1"; Authenticate "s1" (Some alice);
               Connect "s2"; Authenticate "s2" (Some alice);
               Disconnect "s1" "transport close"; Wait 20000;
               Disconnect "s2" "ping timeout"; Wait 30000; Fire 1%nat ] in
  disconnectGraceTimers boot = ∅ ∧ armed (loop boot) = ∅ ∧
  one_timer_per_key (run plain_services ops boot).
Proof.
  cbn zeta. split; [reflexivity|]. split; [reflexivity|].
  apply (handler_one_timer_per_key plain_services _ boot); reflexivity.
Defined.

Lemma handleDisconnect_rearms_witness :
  let st := (wait 20000 (disconnect plain_services "s1" "transport close" two_devices).1.2).1.2 in
  truthy (username (socket_of "s2" st)) = true ∧
  disconnectGraceTimers (handleDisconnect plain_services "s2" "ping timeout" st).1.2 !! "7"
    = Some 1%nat.
Proof.
  cbn zeta. split; [reflexivity|].
  apply (handleDisconnect_rearms plain_services "s2" "ping timeout"); [reflexivity|done|done].
Defined.

End SystemEventsFacts.

(** ** Reconnection *)

Module ReconnectFacts.

Lemma handler_cancel_clears u st :
  SystemEventsHandler.disconnectGraceTimers (SystemEventsHandler.cancelDisconnectTimer u st).2
    !! to_string u = None ∧
  (∀ h, SystemEventsHandler.disconnectGraceTimers st !! to_string u = Some h →
        armed (SystemEventsHandler.loop (SystemEventsHandler.cancelDisconnectTimer u st).2) !! h
        = None).
Proof.
  unfold SystemEventsHandler.cancelDisconnectTimer.
  destruct (SystemEventsHandler.disconnectGraceTimers st !! to_string u) as [h0|] eqn:Hu; cbn.
  - rewrite lookup_delete_eq. split; [done|]. intros h [= <-]. apply lookup_delete_eq.
  - split; [done|]. intros h [=].
Qed.

(** C5, as amended: the reconnect paths cancel - [cancelDisconnectTimer],
    in the grace-period module and in the handler, and a valid
    [authenticate] each leave no entry for the user and disarm the timer
    the entry held, and [authenticate] announces nobody.  The rejoin
    handler announces nobody when [silent] is left out or truthy, and does
    not touch the grace timers at all: a timer still pending when the
    rejoin arrives stays pending. *)
Theorem reconnect_cancels_rejoin_is_silent :
  (∀ u st,
     GraceTimers.disconnectGraceTimers (GraceTimers.cancelDisconnectTimer u st).2 !! u
       = None ∧
     (∀ ti, GraceTimers.disconnectGraceTimers st !! u = Some ti →
            armed (GraceTimers.loop (GraceTimers.cancelDisconnectTimer u st).2)
              !! GraceTimers.timer ti = None)) ∧
  (∀ svc sid d st,
     truthy (SystemEventsHandler.d_userId d) = true →
     truthy (SystemEventsHandler.d_username d) = true →
     SystemEventsHandler.disconnectGraceTimers
       (SystemEventsHandler.authenticate svc sid (Some d) st).1.2
       !! to_string (SystemEventsHandler.d_userId d) = None ∧
     (∀ h, SystemEventsHandler.disconnectGraceTimers st
             !! to_string (SystemEventsHandler.d_userId d) = Some h →
           armed (SystemEventsHandler.loop
                    (SystemEventsHandler.authenticate svc sid (Some d) st).1.2) !! h = None) ∧
     Forall SystemEventsHandler.not_entered
            (SystemEventsHandler.authenticate svc sid (Some d) st).2) ∧
  (∀ svc data w,
     RoomEvents.timers (RoomEvents.rejoinRoom svc data w).1.2 = RoomEvents.timers w ∧
     ((∀ d, data = Some d →
            truthy (with_default (JBool true) (RoomEvents.silent d)) = true) →
      RoomEvents.count_event "room:userEntered" (RoomEvents.rejoinRoom svc data w).2
        = 0%nat)).
Proof.
  split; [|split].
  - intros u st.
    destruct (GraceTimersFacts.cancelDisconnectTimer_clears u st) as (H1 & _ & H3).
    by split.
  - intros svc sid d st Hu Hn.
    pose proof (SystemEventsFacts.authenticate_timers svc sid d st Hu Hn) as Ht.
    destruct (handler_cancel_clears (SystemEventsHandler.d_userId d) st) as [Hc1 Hc2].
    unfold SystemEventsHandler.timers in Ht. injection Ht as Hm Hl.
    rewrite Hm, Hl. split; [done|]. split; [done|].
    apply SystemEventsFacts.authenticate_not_entered.
  - intros svc data w. split.
    + apply RoomEventsFacts.rejoinRoom_keeps_timers.
    + apply RoomEventsFacts.rejoinRoom_silent.
Qed.

Lemma reconnect_cancels_rejoin_is_silent_witness :
  SystemEventsHandler.disconnectGraceTimers
    (SystemEventsHandler.authenticate SystemEventsHandler.plain_services "s2"
       (Some (SystemEventsHandler.mkIds (JNum 7) (JStr "alice")))
       (SystemEventsHandler.disconnect SystemEventsHandler.plain_services "s1" "transport close"
          SystemEventsHandler.alone).1.2).1.2 !! "7" = None ∧
  RoomEvents.count_event "room:userEntered"
    (RoomEvents.rejoinRoom RoomEvents.open_services (Some RoomEvents.alice)
       RoomEvents.pending_world).2 = 0%nat.
Proof.
  destruct reconnect_cancels_rejoin_is_silent as (_ & Hauth & Hrejoin).
  split.
  - apply (Hauth SystemEventsHandler.plain_services "s2"
             (SystemEventsHandler.mkIds (JNum 7) (JStr "alice"))); reflexivity.
  - apply (Hrejoin RoomEvents.open_services (Some RoomEvents.alice)
             RoomEvents.pending_world).
    intros d [= <-]. reflexivity.
Defined.

(** C5, as stated, fails: in [pending_world] a grace timer is pending for
    user [u1]; her rejoin request is valid and is served, silently, and
    afterwards the entry for [u1] is still in the map. *)
Lemma rejoinRoom_keeps_pending_timer :
  RoomEvents.invalid RoomEvents.alice = false ∧
  is_Some (GraceTimers.disconnectGraceTimers
             (RoomEvents.grace RoomEvents.pending_world) !! JStr "u1") ∧
  (RoomEvents.rejoinRoom RoomEvents.open_services (Some RoomEvents.alice)
     RoomEvents.pending_world).1.1 = Ok tt ∧
  ¬ (GraceTimers.disconnectGraceTimers
       (RoomEvents.grace
          (RoomEvents.rejoinRoom RoomEvents.open_services (Some RoomEvents.alice)
             RoomEvents.pending_world).1.2)
       !! RoomEvents.userId RoomEvents.alice = None).
Proof.
  split; [reflexivity|]. split; [by vm_compute; eexists|]. split; [by vm_compute|].
  intros Hnone. vm_compute in Hnone. discriminate.
Qed.

End ReconnectFacts.
(** ** The AbortController variant *)

Module AbortTimersFacts.
Import AbortTimers.

Lemma well_formed_init : well_formed init.
Proof.
  split; cbn; [intros c Hc; by apply not_elem_of_empty in Hc|].
  intros h t H. by rewrite lookup_empty in H.
Qed.

(** X8: a reconnect after a disconnect aborts the controller, clears the
    timer and deletes the entry: however long the process then waits, the
    timer of that disconnect does not fire and nobody is logged out. *)
Theorem reconnect_prevents_logout u d st :
  let st2 := reconnectUser u (addDisconnectGraceTimer u d st) in
  disconnectGraceTimers st2 !! u = None ∧
  armed (loop st2) !! next_handle (loop st) = None ∧
  next_controller st ∈ aborted st2 ∧
  ∀ dt, fire (next_handle (loop st)) (wait dt st2) = wait dt st2.
Proof.
  cbn zeta. unfold addDisconnectGraceTimer, reconnectUser. cbn.
  rewrite lookup_insert_eq. cbn. rewrite !lookup_delete_eq.
  split; [done|]. split; [done|]. split; [set_solver|].
  intros dt. unfold fire, take_due, wait. cbn. by rewrite lookup_delete_eq.
Qed.

(** X9: the start has no guard.  When a user drops twice before
    reconnecting, the second start overwrites the entry; the reconnect then
    aborts and clears the second timer only, and the first one, still armed
    and not aborted, logs the user out once its delay has passed. *)
Theorem second_start_orphans_first u d1 d2 dt st :
  well_formed st →
  coerce_delay (default 0 d1) ≤ dt →
  let st3 := reconnectUser u (addDisconnectGraceTimer u d2 (addDisconnectGraceTimer u d1 st)) in
  disconnectGraceTimers st3 !! u = None ∧
  (∃ t, armed (loop st3) !! next_handle (loop st) = Some t ∧
        closure t = mkClosure u (next_controller st)) ∧
  (next_controller st ∉ aborted st3) ∧
  console (fire (next_handle (loop st)) (wait dt st3))
    = console st ++ ["User " +:+ to_string u +:+ " has been logged out."].
Proof.
  intros [Hc _] Hdt. cbn zeta. unfold addDisconnectGraceTimer, reconnectUser. cbn.
  rewrite lookup_insert_eq. cbn. rewrite lookup_delete_eq.
  assert (next_controller st ∉ {[S (next_controller st)]} ∪ aborted st) as Hna.
  { intros [Hin|Hin]%elem_of_union.
    - apply elem_of_singleton in Hin. lia.
    - apply Hc in Hin. lia. }
  split; [done|]. split; [|split; [done|]].
  - eexists. rewrite lookup_delete_ne by lia. rewrite lookup_insert_ne by lia.
    rewrite lookup_insert_eq. done.
  - unfold fire, take_due, wait. cbn.
    rewrite lookup_delete_ne by lia. rewrite lookup_insert_ne by lia.
    rewrite lookup_insert_eq. cbn.
    destruct (now (loop st) + coerce_delay (default 0 d1) <=? now (loop st) + Z.max 0 dt)
      eqn:Hle; [|apply Z.leb_gt in Hle; lia].
    unfold expire. cbn. by rewrite bool_decide_eq_false_2.
Qed.

Lemma second_start_orphans_first_witness :
  console (fire 0%nat (wait 30000
     (reconnectUser (JStr "u1")
        (addDisconnectGraceTimer (JStr "u1") (Some 30000)
           (addDisconnectGraceTimer (JStr "u1") (Some 30000) init)))))
  = ["User u1 has been logged out."].
Proof.
  destruct (second_start_orphans_first (JStr "u1") (Some 30000) (Some 30000) 30000 init)
    as (_ & _ & _ & H).
  - apply well_formed_init.
  - vm_compute. discriminate.
  - exact H.
Defined.

End AbortTimersFacts.

(** ** The system messages *)

Module SystemMessagesFacts.
Import SystemMessages.

Lemma llist_with_list key l s : llist key (with_list key l s) = l.
Proof.
  unfold llist, with_list. cbn. case_decide as Hl.
  - by rewrite lookup_delete_eq, Hl.
  - by rewrite lookup_insert_eq.
Qed.

(** The range from index 0: a positive count takes that many, a count of
    zero or below takes all but the last [-count]. *)
Lemma range_from_0 l (limit : Z) :
  range l 0 (limit - 1)
  = if 1 <=? limit then take (Z.to_nat limit) l
    else take (Z.to_nat (Z.of_nat (length l) + limit)) l.
Proof.
  unfold range. cbn.
  destruct (1 <=? limit) eqn:Hl.
  - apply Z.leb_le in Hl.
    destruct (limit - 1 <? 0) eqn:Hneg; [apply Z.ltb_lt in Hneg; lia|].
    destruct (Z.min (limit - 1) (Z.of_nat (length l) - 1) <? 0) eqn:He.
    + apply Z.ltb_lt in He. destruct l; cbn in *; [by rewrite take_nil|lia].
    + apply Z.ltb_ge in He. rewrite drop_0.
      destruct (decide (limit ≤ Z.of_nat (length l))).
      * f_equal. lia.
      * rewrite !take_ge; [done| |]; lia.
  - apply Z.leb_gt in Hl.
    destruct (limit - 1 <? 0) eqn:Hneg; [|apply Z.ltb_ge in Hneg; lia].
    destruct (Z.min (Z.of_nat (length l) + (limit - 1)) (Z.of_nat (length l) - 1) <? 0) eqn:He.
    + apply Z.ltb_lt in He.
      replace (Z.to_nat (Z.of_nat (length l) + limit)) with 0%nat by lia. done.
    + apply Z.ltb_ge in He. rewrite drop_0. f_equal. lia.
Qed.

Lemma llist_with_list_ne key k l s : k ≠ key → llist k (with_list key l s) = llist k s.
Proof.
  intros Hk. unfold llist, with_list. cbn. case_decide.
  - by rewrite lookup_delete_ne.
  - by rewrite lookup_insert_ne.
Qed.

Lemma parse_all_ok JSON xs ms s :
  Forall2 (λ x m, parse JSON x = Ok m) xs ms → parse_all JSON xs s = (Ok ms, s, []).
Proof.
  induction 1 as [|x m xs ms Hx _ IH]; [done|].
  cbn. unfold_m. by rewrite Hx, IH.
Qed.

Lemma parse_all_throws JSON xs s :
  Exists (λ x, ∃ e, parse JSON x = Throw e) xs →
  ∃ e, parse_all JSON xs s = (Throw e, s, []).
Proof.
  induction xs as [|x xs IH]; intros Hex; [by apply Exists_nil in Hex|].
  cbn. unfold_m. destruct (parse JSON x) as [m|e] eqn:Hx; [|by eexists].
  apply Exists_cons in Hex as [[e He]|Hex]; [congruence|].
  destruct (IH Hex) as [e ->]. by eexists.
Qed.

Lemma parse_all_pure JSON xs s : ∃ r, parse_all JSON xs s = (r, s, []).
Proof.
  induction xs as [|x xs [r IH]]; [by eexists|].
  cbn. unfold_m. destruct (parse JSON x); [|by eexists].
  rewrite IH. destruct r; by eexists.
Qed.

(** What [getSystemMessages] does when the store answers: one [LRANGE], and
    the parsed entries, or [[]] from the [catch] when one does not parse. *)
Lemma getSystemMessages_reads JSON roomId limit s :
  RedisPresence.client_ready (redis s) = true → RedisPresence.up (redis s) = true →
  getSystemMessages JSON roomId limit s
  = (match (parse_all JSON
              (range (llist (ROOM_SYSTEM_KEY roomId) s) 0 (default 50 limit - 1)) s).1.1
     with
     | Ok ms => Ok ms
     | Throw _ => Ok []
     end, s, [LRANGE (ROOM_SYSTEM_KEY roomId) 0 (default 50 limit - 1)]).
Proof.
  intros Hc Hu. unfold getSystemMessages, getRedisClient, lRange, send.
  unfold_m. rewrite Hc. cbn. rewrite Hu. cbn.
  set (xs := range _ _ _). destruct (parse_all_pure JSON xs s) as [r ->].
  by destruct r.
Qed.

(** X12: with the store up, [getSystemMessages] with a limit of at least 1
    reads the first [limit] entries of the room's list, the newest first,
    and hands back their parsed objects; it sends one [LRANGE] and changes
    nothing. *)
Theorem getSystemMessages_newest_first JSON roomId (limit : option Z) s ms :
  RedisPresence.client_ready (redis s) = true → RedisPresence.up (redis s) = true →
  1 ≤ default 50 limit →
  Forall2 (λ x m, parse JSON x = Ok m)
          (take (Z.to_nat (default 50 limit)) (llist (ROOM_SYSTEM_KEY roomId) s)) ms →
  getSystemMessages JSON roomId limit s
  = (Ok ms, s, [LRANGE (ROOM_SYSTEM_KEY roomId) 0 (default 50 limit - 1)]) ∧
  Z.of_nat (length ms) ≤ default 50 limit.
Proof.
  intros Hc Hu Hl Hp. rewrite getSystemMessages_reads by done.
  rewrite range_from_0. rewrite (proj2 (Z.leb_le _ _) Hl).
  rewrite (parse_all_ok _ _ _ _ Hp). split; [done|].
  apply Forall2_length in Hp. rewrite <- Hp, length_take. lia.
Qed.

Lemma getSystemMessages_newest_first_witness :
  getSystemMessages text_json (JNum 5) (Some 2)
    (mkStore (RedisPresence.mkRedis true true ∅) {[ "room:system:5" := ["mc"; "mb"; "ma"] ]})
  = (Ok [mkSystemMessage (JStr "c") "" "system"; mkSystemMessage (JStr "b") "" "system"],
     mkStore (RedisPresence.mkRedis true true ∅) {[ "room:system:5" := ["mc"; "mb"; "ma"] ]},
     [LRANGE "room:system:5" 0 1]).
Proof.
  apply (getSystemMessages_newest_first text_json (JNum 5) (Some 2));
    [reflexivity | reflexivity | cbn; lia | vm_compute; repeat constructor].
Defined.

(** X13: a limit of 0 does not mean no messages: the range asked for is
    0..-1, which is the whole list, so [getSystemMessages] hands back the
    whole history; a negative limit -k hands back all but the oldest k. *)
Theorem getSystemMessages_limit_zero_is_all JSON roomId (limit : Z) s ms :
  RedisPresence.client_ready (redis s) = true → RedisPresence.up (redis s) = true →
  limit ≤ 0 →
  Forall2 (λ x m, parse JSON x = Ok m)
          (take (Z.to_nat (Z.of_nat (length (llist (ROOM_SYSTEM_KEY roomId) s)) + limit))
                (llist (ROOM_SYSTEM_KEY roomId) s)) ms →
  getSystemMessages JSON roomId (Some limit) s
  = (Ok ms, s, [LRANGE (ROOM_SYSTEM_KEY roomId) 0 (limit - 1)]) ∧
  (limit = 0 → length ms = length (llist (ROOM_SYSTEM_KEY roomId) s)).
Proof.
  intros Hc Hu Hl Hp. rewrite getSystemMessages_reads by done. cbn.
  rewrite range_from_0. rewrite (proj2 (Z.leb_gt _ _)) by lia.
  rewrite (parse_all_ok _ _ _ _ Hp). split; [done|].
  intros ->. apply Forall2_length in Hp. rewrite <- Hp, length_take. lia.
Qed.

Lemma getSystemMessages_limit_zero_is_all_witness :
  getSystemMessages text_json (JNum 5) (Some 0)
    (mkStore (RedisPresence.mkRedis true true ∅) {[ "room:system:5" := ["mc"; "mb"; "ma"] ]})
  = (Ok [mkSystemMessage (JStr "c") "" "system"; mkSystemMessage (JStr "b") "" "system";
         mkSystemMessage (JStr "a") "" "system"],
     mkStore (RedisPresence.mkRedis true true ∅) {[ "room:system:5" := ["mc"; "mb"; "ma"] ]},
     [LRANGE "room:system:5" 0 (-1)]).
Proof.
  apply (getSystemMessages_limit_zero_is_all text_json (JNum 5) 0);
    [reflexivity | reflexivity | lia | vm_compute; repeat constructor].
Defined.

(** X14: one stored entry that does not parse hides them all: when any of
    the entries read fails in [JSON.parse], the [catch] returns the empty
    list. *)
Theorem one_bad_entry_hides_all JSON roomId limit s :
  RedisPresence.client_ready (redis s) = true → RedisPresence.up (redis s) = true →
  Exists (λ x, ∃ e, parse JSON x = Throw e)
         (range (llist (ROOM_SYSTEM_KEY roomId) s) 0 (default 50 limit - 1)) →
  (getSystemMessages JSON roomId limit s).1.1 = Ok [].
Proof.
  intros Hc Hu Hex. rewrite getSystemMessages_reads by done. cbn.
  by destruct (parse_all_throws JSON _ s Hex) as [e ->].
Qed.

Lemma one_bad_entry_hides_all_witness :
  (getSystemMessages text_json (JNum 5) None
     (mkStore (RedisPresence.mkRedis true true ∅)
              {[ "room:system:5" := ["mc"; "oops"; "ma"] ]})).1.1 = Ok [].
Proof.
  apply (one_bad_entry_hides_all text_json (JNum 5) None); try reflexivity.
  apply Exists_cons. right. apply Exists_cons. left. by eexists.
Defined.

(** X11: with the store up, [addSystemMessage] puts the new entry at the
    head of the room's list and trims the list to its first 50 entries: the
    list never grows beyond 50, the oldest entries go first, and no other
    list is touched. *)
Theorem addSystemMessage_caps_history JSON roomId msg now s :
  RedisPresence.client_ready (redis s) = true → RedisPresence.up (redis s) = true →
  let key := ROOM_SYSTEM_KEY roomId in
  let data := stringify JSON (mkSystemMessage msg now "system") in
  let r := addSystemMessage JSON roomId msg now s in
  r.1.1 = Ok true ∧
  r.2 = [LPUSH key data; LTRIM key 0 49] ∧
  llist key r.1.2 = take 50 (data :: llist key s) ∧
  (length (llist key r.1.2) ≤ 50)%nat ∧
  (∀ k, k ≠ key → llist k r.1.2 = llist k s).
Proof.
  intros Hc Hu. cbn zeta.
  unfold addSystemMessage, getRedisClient, lPush, lTrim, send, MAX_SYSTEM_MESSAGES,
    RedisPresence.MAX_SYSTEM_MESSAGES.
  unfold_m. rewrite Hc. cbn. rewrite Hu. cbn. rewrite Hu. cbn.
  rewrite !llist_with_list.
  change 49 with (50 - 1). rewrite range_from_0. cbn.
  split; [done|]. split; [done|]. split; [done|]. split.
  - rewrite length_take. lia.
  - intros k Hk. by rewrite !llist_with_list_ne.
Qed.

Lemma addSystemMessage_caps_history_witness :
  llist "room:system:5"
    (addSystemMessage text_json (JNum 5) (JStr "hi") "now"
       (mkStore (RedisPresence.mkRedis true true ∅) {[ "room:system:5" := ["mold"] ]})).1.2
  = ["mhi"; "mold"].
Proof.
  destruct (addSystemMessage_caps_history text_json (JNum 5) (JStr "hi") "now"
              (mkStore (RedisPresence.mkRedis true true ∅)
                       {[ "room:system:5" := ["mold"] ]}))
    as (_ & _ & H & _); [reflexivity | reflexivity |].
  exact H.
Defined.

(** X15: when the client is missing or the store rejects commands,
    [addSystemMessage] returns [false] and [getSystemMessages] returns the
    empty list; neither throws and the store is as it was. *)
Theorem system_messages_degrade JSON roomId msg now limit s :
  RedisPresence.client_ready (redis s) = false ∨ RedisPresence.up (redis s) = false →
  (addSystemMessage JSON roomId msg now s).1 = (Ok false, s) ∧
  (getSystemMessages JSON roomId limit s).1 = (Ok [], s).
Proof.
  intros Hdown. unfold addSystemMessage, getSystemMessages, getRedisClient, lPush,
    lRange, send. unfold_m.
  destruct (RedisPresence.client_ready (redis s)) eqn:Hc; cbn; [|done].
  destruct Hdown as [Hd|Hd]; [done|]. by rewrite Hd.
Qed.

Lemma system_messages_degrade_witness :
  (addSystemMessage text_json (JNum 5) (JStr "hi") "now"
     (mkStore (RedisPresence.mkRedis true false ∅) ∅)).1
  = (Ok false, mkStore (RedisPresence.mkRedis true false ∅) ∅).
Proof.
  destruct (system_messages_degrade text_json (JNum 5) (JStr "hi") "now" None
              (mkStore (RedisPresence.mkRedis true false ∅) ∅)) as [H _].
  - right. reflexivity.
  - exact H.
Defined.

End SystemMessagesFacts.

(** ** The presence functions over the store *)

Module PresenceFacts.
Import SocketStore RedisPresence.

Lemma try_catch_default {S O A} (m : M S O A) (x : A) (s : S) :
  ∃ a, (try_catch m (λ _, mret x) s).1.1 = Ok a.
Proof.
  unfold try_catch. destruct (m s) as [[[a|e] s1] o1]; cbn; by eexists.
Qed.

(** X16: none of the exported presence functions lets an exception out:
    whatever the state of the registry and of the store, each returns a
    value. *)
Theorem presence_never_throws (ss : State) (roomId name : JsVal) (r : Redis) :
  (∃ b, (addUserToRoom roomId name r).1.1 = Ok b) ∧
  (∃ b, (removeUserFromRoom roomId name r).1.1 = Ok b) ∧
  (∃ b, (isUserInRoom roomId name r).1.1 = Ok b) ∧
  (∃ l, (getRoomUsers ss roomId r).1.1 = Ok l) ∧
  (∃ n, (getRoomUserCount ss roomId r).1.1 = Ok n) ∧
  (∃ b, (clearRoomUsers roomId r).1.1 = Ok b).
Proof. repeat split; apply try_catch_default. Qed.

(** X17: when the client is missing or the store rejects commands, adding
    and removing a member return [false] and leave the store as it was, the
    membership test answers [false], and - the registry not being ready - the
    user list is empty and the count is 0. *)
Theorem presence_degrades (ss : State) (roomId name : JsVal) (r : Redis) :
  client_ready r = false ∨ up r = false →
  (addUserToRoom roomId name r).1 = (Ok false, r) ∧
  (removeUserFromRoom roomId name r).1 = (Ok false, r) ∧
  (isUserInRoom roomId name r).1 = (Ok false, r) ∧
  (isSocketReady ss = false →
   (getRoomUsers ss roomId r).1 = (Ok [], r) ∧
   (getRoomUserCount ss roomId r).1 = (Ok 0%nat, r)).
Proof.
  intros Hdown.
  unfold addUserToRoom, removeUserFromRoom, isUserInRoom, call_key, resolve.
  rewrite RegistryFacts.ROOM_PARTICIPANTS_KEY_bound.
  unfold getRedisClient, sAdd, sRem, sIsMember, send. unfold_m.
  split; [|split; [|split]].
  1-3: destruct (client_ready r) eqn:Hc; cbn; [|done];
       destruct Hdown as [Hd|Hd]; [done|]; by rewrite Hd.
  intros Hnr. destruct (RegistryFacts.not_ready_unknown ss roomId Hnr) as [Hn Hu].
  unfold getRoomUsers, getRoomUserCount. rewrite Hn, Hu.
  unfold getRedisClient, sMembers, sCard, send. unfold_m.
  destruct (client_ready r) eqn:Hc; cbn; [|done].
  destruct Hdown as [Hd|Hd]; [done|]. by rewrite Hd.
Qed.

Lemma presence_degrades_witness :
  (addUserToRoom (JNum 7) (JStr "alice") (mkRedis true false ∅)).1
    = (Ok false, mkRedis true false ∅) ∧
  (getRoomUserCount init (JNum 7) (mkRedis true false ∅)).1
    = (Ok 0%nat, mkRedis true false ∅).
Proof.
  destruct (presence_degrades init (JNum 7) (JStr "alice") (mkRedis true false ∅))
    as (H1 & _ & _ & H4); [right; reflexivity|].
  split; [exact H1|]. apply H4. reflexivity.
Defined.

(** What the three membership functions do when the store answers. *)
Lemma membership_when_up roomId name r :
  client_ready r = true → up r = true →
  let key := ROOM_PARTICIPANTS_KEY roomId in
  (addUserToRoom roomId name r).1.1 = Ok true ∧
  smembers key (addUserToRoom roomId name r).1.2 = {[to_string name]} ∪ smembers key r ∧
  (removeUserFromRoom roomId name r).1.1 = Ok true ∧
  smembers key (removeUserFromRoom roomId name r).1.2 = smembers key r ∖ {[to_string name]} ∧
  (isUserInRoom roomId name r).1.1 = Ok (bool_decide (to_string name ∈ smembers key r)) ∧
  client_ready (addUserToRoom roomId name r).1.2 = true ∧
  up (addUserToRoom roomId name r).1.2 = true ∧
  client_ready (removeUserFromRoom roomId name r).1.2 = true ∧
  up (removeUserFromRoom roomId name r).1.2 = true.
Proof.
  intros Hc Hu. cbn zeta.
  unfold addUserToRoom, removeUserFromRoom, isUserInRoom, call_key, resolve.
  rewrite RegistryFacts.ROOM_PARTICIPANTS_KEY_bound.
  unfold getRedisClient, sAdd, sRem, sIsMember, send. unfold_m.
  rewrite Hc. cbn. rewrite Hu. cbn.
  repeat split; try done.
  - unfold smembers at 1, with_sets. cbn. by rewrite lookup_insert_eq.
  - unfold smembers at 1, with_sets. cbn.
    case_decide as He; [by rewrite lookup_delete_eq, He|by rewrite lookup_insert_eq].
Qed.

(** X18: with the store up, a name just added to a room is a member, a name
    just removed is not, and adding or removing one name does not change the
    answer for any other name. *)
Theorem membership_round_trip roomId name other r :
  client_ready r = true → up r = true →
  (isUserInRoom roomId name (addUserToRoom roomId name r).1.2).1.1 = Ok true ∧
  (isUserInRoom roomId name (removeUserFromRoom roomId name r).1.2).1.1 = Ok false ∧
  (to_string other ≠ to_string name →
   (isUserInRoom roomId other (addUserToRoom roomId name r).1.2).1.1
     = (isUserInRoom roomId other r).1.1 ∧
   (isUserInRoom roomId other (removeUserFromRoom roomId name r).1.2).1.1
     = (isUserInRoom roomId other r).1.1).
Proof.
  intros Hc Hu.
  destruct (membership_when_up roomId name r Hc Hu)
    as (_ & Hadd & _ & Hrem & _ & Hca & Hua & Hcr & Hur).
  pose proof (membership_when_up roomId name _ Hca Hua) as (_ & _ & _ & _ & Hia & _).
  pose proof (membership_when_up roomId name _ Hcr Hur) as (_ & _ & _ & _ & Hir & _).
  rewrite Hia, Hir, Hadd, Hrem. split; [|split].
  - f_equal. apply bool_decide_eq_true, elem_of_union. left. by apply elem_of_singleton.
  - f_equal. apply bool_decide_eq_false. intros [_ Hn]%elem_of_difference.
    apply Hn. by apply elem_of_singleton.
  - intros Hne.
    pose proof (membership_when_up roomId other _ Hca Hua) as (_ & _ & _ & _ & -> & _).
    pose proof (membership_when_up roomId other _ Hcr Hur) as (_ & _ & _ & _ & -> & _).
    pose proof (membership_when_up roomId other _ Hc Hu) as (_ & _ & _ & _ & -> & _).
    rewrite Hadd, Hrem. split; f_equal; apply bool_decide_ext.
    + rewrite elem_of_union, elem_of_singleton. tauto.
    + rewrite elem_of_difference, elem_of_singleton. tauto.
Qed.

Lemma membership_round_trip_witness :
  (isUserInRoom (JNum 7) (JStr "carol")
     (addUserToRoom (JNum 7) (JStr "carol") stale_store).1.2).1.1 = Ok true ∧
  (isUserInRoom (JNum 7) (JStr "alice")
     (removeUserFromRoom (JNum 7) (JStr "alice") stale_store).1.2).1.1 = Ok false.
Proof.
  destruct (membership_round_trip (JNum 7) (JStr "carol") (JStr "bob") stale_store)
    as (H1 & _ & _); [reflexivity | reflexivity |].
  destruct (membership_round_trip (JNum 7) (JStr "alice") (JStr "bob") stale_store)
    as (_ & H2 & _); [reflexivity | reflexivity |].
  split; [exact H1 | exact H2].
Defined.

Lemma length_omap_le {A B} (f : A → option B) (l : list A) :
  (length (omap f l) ≤ length l)%nat.
Proof. induction l as [|a l IH]; cbn; [done|]. destruct (f a); cbn; lia. Qed.

(** X19: in every state the user list is never longer than the user count
    taken in the same state, and when the registry is not ready the two
    agree.  With the registry ready they differ as soon as a socket without
    a username is in the room: it is counted and not listed. *)
Theorem listed_users_at_most_count (ss : State) (roomId : JsVal) (r : Redis) :
  ∃ l n,
    (getRoomUsers ss roomId r).1.1 = Ok l ∧
    (getRoomUserCount ss roomId r).1.1 = Ok n ∧
    (length l ≤ n)%nat ∧
    (isSocketReady ss = false → length l = n).
Proof.
  unfold getRoomUsers, getRoomUserCount, getSocketRoomUsers, getSocketRoomCount,
    isSocketReady.
  destruct (isReady ss), (chatNamespace ss) as [ns|]; cbn.
  1: { destruct (rooms ns !! roomKey roomId) as [sids|]; cbn.
       - eexists _, _. split; [done|]. split; [done|]. split; [|done].
         rewrite length_map. apply length_omap_le.
       - eexists _, _. repeat split; done. }
  all: unfold getRedisClient, sMembers, sCard, send; unfold_m;
       destruct (client_ready r); cbn; [|by eexists _, _];
       destruct (up r); cbn; [|by eexists _, _];
       eexists _, _; (split; [done|]); (split; [done|]);
       rewrite length_map; split; [|intros _]; reflexivity.
Qed.

(** A socket that has not been given a username is counted and not listed. *)
Lemma unnamed_socket_counted_not_listed :
  let ss := setIo (mkIo (mkNamespace {[ "room:7" := ["s1"; "s2"] ]}
                          {[ "s1" := mkSocketInfo (JNum 1) (JStr "alice");
                             "s2" := mkSocketInfo JUndefined JUndefined ]})) init in
  (getRoomUsers ss (JNum 7) stale_store).1.1 = Ok [JStr "alice"] ∧
  (getRoomUserCount ss (JNum 7) stale_store).1.1 = Ok 2%nat.
Proof. by vm_compute. Qed.

(** X20: with the registry ready, [getSocketRoomUsers] lists exactly the
    sockets of the room that exist and carry a truthy username, each with
    its own id, user id and username. *)
Theorem listed_users_are_named_sockets io ss0 roomId u :
  let ss := setIo io ss0 in
  ∃ us, getSocketRoomUsers roomId ss = Some us ∧
    (u ∈ us ↔
     ∃ sids, rooms (of_chat io) !! roomKey roomId = Some sids ∧
             socketId u ∈ sids ∧
             sockets (of_chat io) !! socketId u = Some (mkSocketInfo (id u) (username u)) ∧
             truthy (username u) = true).
Proof.
  cbn zeta. unfold getSocketRoomUsers, setIo. cbn.
  destruct (rooms (of_chat io) !! roomKey roomId) as [sids|] eqn:Hr.
  - eexists. split; [done|]. rewrite list_elem_of_omap. split.
    + intros (sid & Hsid & Hu). exists sids. split; [done|].
      destruct (sockets (of_chat io) !! sid) as [[uid uname]|] eqn:Hs; [|done].
      cbn in Hu. destruct (truthy uname) eqn:Ht; [|done]. injection Hu as <-. cbn.
      by rewrite Hs.
    + intros (sids' & [= <-] & Hsid & Hs & Ht). exists (socketId u).
      split; [done|]. rewrite Hs. cbn. rewrite Ht. by destruct u.
  - exists []. split; [done|]. split; [by intros ?%elem_of_nil|].
    by intros (sids & [=] & _).
Qed.
End PresenceFacts.

